(** * IIIF manifest generation (scripts/10_generate_manifests.py)

    A shallow embedding of the manifest generator: catalog loader, image
    resolver, canvas builder, manifest builder and generation driver.

    Conventions of the embedding.
    - Python [str] is [string]; the characters the code inspects ('(', ')',
      ' ', '/', digits) are ASCII, so working on UTF-8 bytes agrees with
      working on code points.
    - Python [int] is [Z]; [f"{n}"] is stdpp's [pretty].
    - Literal dicts and lists that end up in the JSON document are a [json]
      tree whose objects keep their keys in insertion order.
    - The rows yielded by [csv.DictReader] are [gmap string cell]; a cell is
      [Some s] for a field that was read and [None] for the reader's
      [restval] of a short row.
    - The file system is a finite map from path strings to nodes; console
      output on stderr ([click.echo(..., err=True)]) is a list of lines.
      Progress lines on stdout are not recorded.
    - Library calls whose behaviour is not defined by this repository
      (pathlib, os.path, PIL, json, csv) are variables of [Section Platform]. *)

From Stdlib Require Import ZArith String Ascii List Lia.
From stdpp Require Import base strings list gmap pretty.

Set Warnings "-register-all".
Local Open Scope Z_scope.

(** ** Strings *)

(** [s.replace(c, r)] for a one-character [c]. *)
Fixpoint str_replace (c : ascii) (r : string) (s : string) : string :=
  match s with
  | EmptyString => EmptyString
  | String a s' =>
      if Ascii.eqb a c then r +:+ str_replace c r s'
      else String a (str_replace c r s')
  end.

(** The characters of a string, in order. *)
Fixpoint chars (s : string) : list ascii :=
  match s with
  | EmptyString => []
  | String a s' => a :: chars s'
  end.

(** Whether the character list [s] begins with [t]. *)
Fixpoint starts_with (t s : list ascii) : bool :=
  match t, s with
  | [], _ => true
  | a :: t', b :: s' => Ascii.eqb a b && starts_with t' s'
  | _ :: _, [] => false
  end.

(** [s.endswith(t)], through the reversed character lists. *)
Definition ends_with (t s : string) : bool :=
  starts_with (rev (chars t)) (rev (chars s)).

(** ASCII upper- and lower-casing of one character. *)
Definition ascii_upper (a : ascii) : ascii :=
  let n := nat_of_ascii a in
  if (97 <=? n)%nat && (n <=? 122)%nat then ascii_of_nat (n - 32) else a.

Definition ascii_lower (a : ascii) : ascii :=
  let n := nat_of_ascii a in
  if (65 <=? n)%nat && (n <=? 90)%nat then ascii_of_nat (n + 32) else a.

Fixpoint str_map (f : ascii -> ascii) (s : string) : string :=
  match s with
  | EmptyString => EmptyString
  | String a s' => String (f a) (str_map f s')
  end.

(** [s.capitalize()] on ASCII text. *)
Definition capitalize (s : string) : string :=
  match s with
  | EmptyString => EmptyString
  | String a s' => String (ascii_upper a) (str_map ascii_lower s')
  end.

(** ** Catalog cells and JSON documents *)

Abbreviation cell := (option string).

(** [f"{v}"] for a cell: Python prints [None] as the word None. *)
Definition fmt (v : cell) : string :=
  match v with
  | Some s => s
  | None => "None"
  end.

Inductive json :=
| JNull
| JInt (z : Z)
| JStr (s : string)
| JList (l : list json)
| JDict (kv : list (string * json)).

Definition json_of_cell (v : cell) : json :=
  match v with
  | Some s => JStr s
  | None => JNull
  end.

Fixpoint assoc {A} (k : string) (kv : list (string * A)) : option A :=
  match kv with
  | [] => None
  | (k', v) :: kv' => if String.eqb k k' then Some v else assoc k kv'
  end.

(** [d[k]] and [l[i]] on a document, [None] when the shape is wrong. *)
Definition jget (k : string) (j : json) : option json :=
  match j with
  | JDict kv => assoc k kv
  | _ => None
  end.

Definition jnth (i : nat) (j : json) : option json :=
  match j with
  | JList l => l !! i
  | _ => None
  end.

Inductive sel :=
| Key (k : string)
| Idx (i : nat).

Fixpoint jpath (p : list sel) (j : json) : option json :=
  match p with
  | [] => Some j
  | Key k :: p' =>
      match jget k j with
      | Some j' => jpath p' j'
      | None => None
      end
  | Idx i :: p' =>
      match jnth i j with
      | Some j' => jpath p' j'
      | None => None
      end
  end.

Definition jitems (j : json) : list json :=
  match jget "items" j with
  | Some (JList l) => l
  | _ => []
  end.

(** ** Fixed tables *)

Definition SAINT_CATEGORIES : list string :=
  [ "11F(MARY)";
    "11H(ANTONY ABBOT)";
    "11H(ANTONY OF PADUA)";
    "11H(AUGUSTINE)";
    "11H(DOMINIC)";
    "11H(FRANCIS)";
    "11H(JEROME)";
    "11H(JOHN THE BAPTIST)";
    "11H(JOHN)";
    "11H(JOSEPH)";
    "11H(PAUL)";
    "11H(PETER)";
    "11H(SEBASTIAN)";
    "11H(STEPHEN)";
    "11HH(BARBARA)";
    "11HH(CATHERINE)";
    "11HH(MARY MAGDALENE)" ].

(** The probe order of [find_image_file]. *)
Definition extensions : list string :=
  [".jpg"; ".jpeg"; ".png"; ".tif"; ".tiff";
   ".JPG"; ".JPEG"; ".PNG"; ".TIF"; ".TIFF"].

(** The suffixes accepted by the driver's directory check. *)
Definition image_extensions : list string :=
  [".jpg"; ".jpeg"; ".png"; ".tif"; ".tiff"].

(** ** sanitize_filename *)

Definition sanitize_filename (name : string) : string :=
  str_replace " " "_" (str_replace ")" "" (str_replace "(" "_" name)).

(** ** create_canvas *)

Definition collections_prefix (base_url manifest_id : string) : string :=
  base_url +:+ "/collections/" +:+ manifest_id +:+ "/".

Definition create_canvas (item_id : cell) (image_filename base_url : string)
    (width height canvas_index : Z) (manifest_id : string) : json :=
  let image_service_url := base_url +:+ "/iiif/3/" +:+ image_filename in
  JDict
    [ ("id", JStr (base_url +:+ "/collections/" +:+ manifest_id +:+ "/canvas/"
                     +:+ pretty canvas_index));
      ("type", JStr "Canvas");
      ("label", JDict [("en", JList [json_of_cell item_id])]);
      ("height", JInt height);
      ("width", JInt width);
      ("items", JList
         [ JDict
             [ ("id", JStr (base_url +:+ "/collections/" +:+ manifest_id
                              +:+ "/page/" +:+ pretty canvas_index));
               ("type", JStr "AnnotationPage");
               ("items", JList
                  [ JDict
                      [ ("id", JStr (base_url +:+ "/collections/"
                                       +:+ manifest_id +:+ "/annotation/"
                                       +:+ pretty canvas_index));
                        ("type", JStr "Annotation");
                        ("motivation", JStr "painting");
                        ("body", JDict
                           [ ("id", JStr (image_service_url
                                            +:+ "/full/max/0/default.jpg"));
                             ("type", JStr "Image");
                             ("format", JStr "image/jpeg");
                             ("height", JInt height);
                             ("width", JInt width);
                             ("service", JList
                                [ JDict
                                    [ ("id", JStr image_service_url);
                                      ("type", JStr "ImageService3");
                                      ("profile", JStr "level2") ] ]) ]);
                        ("target", JStr (base_url +:+ "/collections/"
                                           +:+ manifest_id +:+ "/canvas/"
                                           +:+ pretty canvas_index)) ] ]) ] ]) ].

(** The four identifiers of a canvas document, by their place in it. *)
Definition canvas_id (c : json) : option json :=
  jpath [Key "id"] c.

Definition page_id (c : json) : option json :=
  jpath [Key "items"; Idx 0; Key "id"] c.

Definition annotation_id (c : json) : option json :=
  jpath [Key "items"; Idx 0; Key "items"; Idx 0; Key "id"] c.

Definition service_id (c : json) : option json :=
  jpath [Key "items"; Idx 0; Key "items"; Idx 0; Key "body";
         Key "service"; Idx 0; Key "id"] c.

Definition canvas_label (c : json) : option json :=
  jpath [Key "label"; Key "en"; Idx 0] c.

(** [has_prefix p s]: [s.startswith(p)] *)
Definition has_prefix (p s : string) : bool :=
  starts_with (chars p) (chars s).

(** What [sanitize_filename] does to one character. *)
Definition sanitize_char (a : ascii) : string :=
  if Ascii.eqb a "(" then "_"
  else if Ascii.eqb a ")" then ""
  else if Ascii.eqb a " " then "_"
  else String a EmptyString.

Fixpoint str_concat_map (f : ascii -> string) (s : string) : string :=
  match s with
  | EmptyString => EmptyString
  | String a s' => f a +:+ str_concat_map f s'
  end.

(** ** Exceptions, results and the world *)

Inductive exn :=
| KeyError (k : string)
| FileNotFoundError (p : string)
| IsADirectoryError (p : string)
| NotADirectoryError (p : string)
| FileExistsError (p : string)
| OSError (p : string).

Inductive result (A : Type) :=
| Ok (a : A)
| Raise (e : exn).

Arguments Ok {A} a.
Arguments Raise {A} e.

Inductive node :=
| Dir
| File (content : string).

Record world := World {
  files : gmap string node;
  stderr : list string
}.

(** Computations that read and change the world and may raise. *)
Definition M (A : Type) : Type := world -> result A * world.

#[global] Instance M_ret : MRet M := fun A a w => (Ok a, w).

#[global] Instance M_bind : MBind M := fun A B k m w =>
  match m w with
  | (Ok a, w') => k a w'
  | (Raise e, w') => (Raise e, w')
  end.

Definition raise {A} (e : exn) : M A := fun w => (Raise e, w).

Definition get_files : M (gmap string node) := fun w => (Ok (files w), w).

Definition lift {A} (r : result A) : M A := fun w => (r, w).

(** [click.echo(s, err=True)] *)
Definition echo_err (s : string) : M unit :=
  fun w => (Ok tt, World (files w) (stderr w ++ [s])).

(** A [for] loop whose body updates a loop state. *)
Fixpoint for_each {A S} (body : S -> A -> M S) (l : list A) (s : S) : M S :=
  match l with
  | [] => mret s
  | x :: l' => s' ← body s x; for_each body l' s'
  end.

Definition path_exists (fs : gmap string node) (p : string) : bool :=
  bool_decide (is_Some (fs !! p)).

Definition is_file (fs : gmap string node) (p : string) : bool :=
  match fs !! p with
  | Some (File _) => true
  | _ => false
  end.

Definition is_dir (fs : gmap string node) (p : string) : bool :=
  match fs !! p with
  | Some Dir => true
  | _ => false
  end.

(** ** load_csv_data: the loop over the rows *)

Abbreviation row := (gmap string cell).
Abbreviation buckets := (list (string * list cell)).

Record catalog := Catalog {
  set_data : buckets;
  saint_data : buckets;
  all_items : list cell
}.

(** [row[k]] *)
Definition getitem (r : row) (k : string) : result cell :=
  match r !! k with
  | Some v => Ok v
  | None => Raise (KeyError k)
  end.

(** [row.get(k, '0') == '1'] *)
Definition flag_set (r : row) (k : string) : bool :=
  bool_decide (default (Some "0") (r !! k) = Some "1").

(** [k in d] for a dict with string keys and a cell [k]. *)
Definition bucket_in (k : cell) (d : buckets) : bool :=
  match k with
  | Some s => existsb (String.eqb s) (map fst d)
  | None => false
  end.

(** [d[k].append(v)] *)
Definition bucket_append (k : string) (v : cell) (d : buckets) : buckets :=
  map (fun kv => if String.eqb (fst kv) k then (fst kv, snd kv ++ [v]) else kv) d.

Definition empty_catalog : catalog :=
  {| set_data := [("train", []); ("test", []); ("val", [])];
     saint_data := map (fun saint => (saint, [])) SAINT_CATEGORIES;
     all_items := [] |}.

Definition load_row (c : catalog) (r : row) : result catalog :=
  match getitem r "item" with
  | Raise e => Raise e
  | Ok item_id =>
      match getitem r "set" with
      | Raise e => Raise e
      | Ok set_name =>
          Ok {| all_items := all_items c ++ [item_id];
                set_data :=
                  if bucket_in set_name (set_data c)
                  then bucket_append (fmt set_name) item_id (set_data c)
                  else set_data c;
                saint_data :=
                  fold_left
                    (fun d saint =>
                       if flag_set r saint then bucket_append saint item_id d
                       else d)
                    SAINT_CATEGORIES (saint_data c) |}
      end
  end.

Fixpoint load_rows (rows : list row) (c : catalog) : result catalog :=
  match rows with
  | [] => Ok c
  | r :: rows' =>
      match load_row c r with
      | Ok c' => load_rows rows' c'
      | Raise e => Raise e
      end
  end.

(** Vocabulary for the loader's result: the value of a field, the rows the
    loop can index, and the item ids of the rows passing a test. *)
Definition field (k : string) (r : row) : cell := default None (r !! k).

Definition row_ok (r : row) : Prop :=
  is_Some (r !! "item") /\ is_Some (r !! "set").

Definition in_split (s : string) (r : row) : bool :=
  bool_decide (r !! "set" = Some (Some s)).

Definition items_where (f : row -> bool) (rows : list row) : list cell :=
  map (field "item") (List.filter f rows).

(** ** The platform: library calls the repository relies on *)

Record options := Options {
  csv_file : string;
  images_dir : string;
  output_dir : string;
  base_url : string;
  sample_size : option Z;
  generate_splits : bool;
  generate_saints : bool;
  generate_all : bool;
  verbose : bool;
  force : bool
}.

Record loop_state := LoopState {
  canvases : list json;
  canvas_index : Z;
  skipped : Z
}.

Section Platform.

(** [str(Path(d) / name)] *)
Variable path_join : string -> string -> string.
(** [Path(p).name] *)
Variable path_name : string -> string.
(** [Path(p).suffix] *)
Variable path_suffix : string -> string.
(** [os.path.join(d, name)] *)
Variable os_path_join : string -> string -> string.
(** The path normalisation at the head of the driver: a relative path is
    re-rooted at [/] when the working directory is named [scripts] and is
    resolved against the working directory otherwise. *)
Variable resolve_path : string -> string.
(** [dir_entry d p]: [p] is one of the entries [Path(d).iterdir()] yields. *)
Variable dir_entry : string -> string -> bool.
(** The directories above [d] that [os.makedirs(d)] creates when missing. *)
Variable path_ancestors : string -> list string.
(** [with Image.open(p) as img: img.size], or the text of the exception. *)
Variable Image_size : gmap string node -> string -> string + (Z * Z).
(** [json.dump(doc, f, indent=2, ensure_ascii=False)] as text. *)
Variable json_dump : json -> string.
(** The rows [csv.DictReader] yields for a file's text. *)
Variable DictReader : string -> list row.
(** Whether [open(p, 'w')] succeeds. *)
Variable can_write : gmap string node -> string -> bool.

(** *** get_image_dimensions *)

Definition get_image_dimensions (image_path : string) : M (Z * Z) :=
  fs ← get_files;
  match Image_size fs image_path with
  | inr size => mret size
  | inl e =>
      echo_err ("Warning: Could not read dimensions for " +:+ image_path
                  +:+ ": " +:+ e);;
      mret (1000, 1000)
  end.

(** *** find_image_file *)

Fixpoint probe (fs : gmap string node) (item_id : cell) (images_dir : string)
    (exts : list string) : option string :=
  match exts with
  | [] => None
  | ext :: exts' =>
      let image_file := path_join images_dir (fmt item_id +:+ ext) in
      if path_exists fs image_file then Some image_file
      else probe fs item_id images_dir exts'
  end.

Definition find_image_file (fs : gmap string node) (item_id : cell)
    (images_dir : string) : option string :=
  probe fs item_id images_dir extensions.

(** [if not image_file] is taken for [None] and for the empty string. *)
Definition located (fs : gmap string node) (item_id : cell)
    (images_dir : string) : bool :=
  match find_image_file fs item_id images_dir with
  | Some (String _ _) => true
  | _ => false
  end.

(** *** create_multi_image_manifest *)

(** The body of the loop over [image_ids]. *)
Definition canvas_step (manifest_id images_dir base_url : string)
    (st : loop_state) (item_id : cell) : M loop_state :=
  fs ← get_files;
  match find_image_file fs item_id images_dir with
  | Some (String _ _ as image_file) =>
      size ← get_image_dimensions image_file;
      let image_filename := path_name image_file in
      let canvas :=
        create_canvas item_id image_filename base_url (fst size) (snd size)
          (canvas_index st) manifest_id in
      mret {| canvases := canvases st ++ [canvas];
              canvas_index := canvas_index st + 1;
              skipped := skipped st |}
  | _ =>
      mret {| canvases := canvases st;
              canvas_index := canvas_index st;
              skipped := skipped st + 1 |}
  end.

Definition build_canvases (manifest_id images_dir base_url : string)
    (image_ids : list cell) : M loop_state :=
  for_each (canvas_step manifest_id images_dir base_url) image_ids
    {| canvases := []; canvas_index := 1; skipped := 0 |}.

Definition manifest_doc (manifest_id label description base_url : string)
    (items : list json) : json :=
  JDict
    [ ("@context", JStr "http://iiif.io/api/presentation/3/context.json");
      ("id", JStr (base_url +:+ "/collections/" +:+ manifest_id +:+ ".json"));
      ("type", JStr "Manifest");
      ("label", JDict [("en", JList [JStr label])]);
      ("summary", JDict [("en", JList [JStr description])]);
      ("items", JList items) ].

(** [with open(p, 'w') as f: json.dump(doc, f, ...)] *)
Definition write_json (p : string) (doc : json) : M unit :=
  fun w =>
    if can_write (files w) p
    then (Ok tt, World (<[p := File (json_dump doc)]> (files w)) (stderr w))
    else (Raise (OSError p), w).

Definition create_multi_image_manifest
    (manifest_id label description : string) (image_ids : list cell)
    (images_dir base_url output_path : string) (verbose : bool) : M json :=
  st ← build_canvases manifest_id images_dir base_url image_ids;
  let manifest :=
    manifest_doc manifest_id label description base_url (canvases st) in
  write_json output_path manifest;;
  mret manifest.

(** The loop's result as plain functions of the file system, used to
    state what [build_canvases] returns: the size the canvas of a located
    file gets, the canvases built from index [idx] on, and the warnings
    printed on the way. *)
Definition canvas_dimensions (fs : gmap string node) (image_file : string)
    : Z * Z :=
  match Image_size fs image_file with
  | inr size => size
  | inl _ => (1000, 1000)
  end.

Definition dimension_warning (image_path e : string) : string :=
  "Warning: Could not read dimensions for " +:+ image_path +:+ ": " +:+ e.

Fixpoint canvases_from (fs : gmap string node)
    (manifest_id images_dir base_url : string) (image_ids : list cell)
    (idx : Z) : list json :=
  match image_ids with
  | [] => []
  | item_id :: rest =>
      match find_image_file fs item_id images_dir with
      | Some (String _ _ as image_file) =>
          create_canvas item_id (path_name image_file) base_url
            (fst (canvas_dimensions fs image_file))
            (snd (canvas_dimensions fs image_file)) idx manifest_id
          :: canvases_from fs manifest_id images_dir base_url rest (idx + 1)
      | _ => canvases_from fs manifest_id images_dir base_url rest idx
      end
  end.

Fixpoint warnings_from (fs : gmap string node) (images_dir : string)
    (image_ids : list cell) : list string :=
  match image_ids with
  | [] => []
  | item_id :: rest =>
      match find_image_file fs item_id images_dir with
      | Some (String _ _ as image_file) =>
          match Image_size fs image_file with
          | inl e => [dimension_warning image_file e]
          | inr _ => []
          end
      | _ => []
      end ++ warnings_from fs images_dir rest
  end.

(** *** load_csv_data *)

Definition load_csv_data (csv_path : string) : M catalog :=
  fs ← get_files;
  match fs !! csv_path with
  | Some (File text) => lift (load_rows (DictReader text) empty_catalog)
  | Some Dir => raise (IsADirectoryError csv_path)
  | None => raise (FileNotFoundError csv_path)
  end.

(** *** generate_manifests *)

(** [[f for f in Path(d).iterdir() if f.is_file()
      and f.suffix.lower() in image_extensions]] *)
Definition image_files (fs : gmap string node) (d : string)
    : result (list string) :=
  match fs !! d with
  | Some Dir =>
      Ok (List.filter
            (fun f => dir_entry d f && is_file fs f
                      && bool_decide (str_map ascii_lower (path_suffix f)
                                        ∈ image_extensions))
            (map fst (map_to_list fs)))
  | Some (File _) => Raise (NotADirectoryError d)
  | None => Raise (FileNotFoundError d)
  end.

(** [list(Path(d).glob('*.json'))] *)
Definition glob_json (fs : gmap string node) (d : string) : list string :=
  List.filter
    (fun f => dir_entry d f && ends_with ".json" (path_name f))
    (map fst (map_to_list fs)).

(** [os.makedirs(d, exist_ok=True)] *)
Definition makedirs (d : string) : M unit :=
  fun w =>
    let ps := path_ancestors d ++ [d] in
    match List.find (is_file (files w)) ps with
    | Some p =>
        (Raise (if String.eqb p d then FileExistsError d
                else NotADirectoryError d), w)
    | None =>
        (Ok tt,
         World (foldr (fun p fs => <[p := Dir]> fs) (files w) ps) (stderr w))
    end.

Definition set_descriptions : list (string * string) :=
  [ ("train", "Training set images from the ArtDL dataset");
    ("test", "Test set images from the ArtDL dataset");
    ("val", "Validation set images from the ArtDL dataset") ].

(** The body of the loop over [set_data.items()]. *)
Definition split_step (images_dir output_dir base_url : string)
    (verbose : bool) (_ : unit) (kv : string * list cell) : M unit :=
  let set_name := fst kv in
  let image_ids := snd kv in
  match image_ids with
  | [] =>
      echo_err ("  ⚠ Skipping " +:+ set_name +:+ ".json (no images)")
  | _ :: _ =>
      let output_path := os_path_join output_dir (set_name +:+ ".json") in
      match assoc set_name set_descriptions with
      | None => raise (KeyError set_name)
      | Some description =>
          create_multi_image_manifest set_name
            (capitalize set_name +:+ " Set") description image_ids
            images_dir base_url output_path verbose;;
          mret tt
      end
  end.

(** The body of the loop over [SAINT_CATEGORIES]. *)
Definition saint_step (saints : buckets)
    (images_dir output_dir base_url : string) (verbose : bool)
    (_ : unit) (saint : string) : M unit :=
  match assoc saint saints with
  | None => raise (KeyError saint)
  | Some [] => mret tt
  | Some ((_ :: _) as image_ids) =>
      let filename := sanitize_filename saint +:+ ".json" in
      let output_path := os_path_join output_dir filename in
      create_multi_image_manifest (sanitize_filename saint) saint
        ("Images depicting " +:+ saint +:+ " from the ArtDL dataset")
        image_ids images_dir base_url output_path verbose;;
      mret tt
  end.

(** The sample block; [if sample_size and sample_size > 0]. *)
Definition sample_stage (items : list cell)
    (images_dir output_dir base_url : string) (sample_size : option Z)
    (verbose force : bool) : M unit :=
  match sample_size with
  | Some n =>
      if (0 <? n)%Z then
        let sample_path := os_path_join output_dir "sample.json" in
        fs ← get_files;
        if path_exists fs sample_path && negb force then mret tt
        else
          let sample_items := take (Z.to_nat n) items in
          create_multi_image_manifest "sample"
            ("Sample Collection (" +:+ pretty n +:+ " images)")
            ("Sample collection of " +:+ pretty n
               +:+ " images from the ArtDL dataset")
            sample_items images_dir base_url sample_path verbose;;
          mret tt
      else mret tt
  | None => mret tt
  end.

Definition generate_manifests (o : options) : M unit :=
  let generate_splits := generate_all o || generate_splits o in
  let generate_saints := generate_all o || generate_saints o in
  let csv_file := resolve_path (csv_file o) in
  let images_dir := resolve_path (images_dir o) in
  let output_dir := resolve_path (output_dir o) in
  fs ← get_files;
  if negb (path_exists fs csv_file) then
    echo_err ("✗ Error: CSV file not found: " +:+ csv_file)
  else if negb (path_exists fs images_dir) then
    echo_err ("✗ Error: Images directory not found: " +:+ images_dir)
  else
    imgs ← lift (image_files fs images_dir);
    match imgs with
    | [] => echo_err ("✗ Error: No image files found in " +:+ images_dir)
    | _ :: _ =>
        if path_exists fs output_dir && negb (force o)
           && negb (bool_decide (glob_json fs output_dir = []))
        then mret tt
        else
          makedirs output_dir;;
          cat ← load_csv_data csv_file;
          (if generate_splits
           then for_each
                  (split_step images_dir output_dir (base_url o) (verbose o))
                  (set_data cat) tt
           else mret tt);;
          (if generate_saints
           then for_each
                  (saint_step (saint_data cat) images_dir output_dir
                     (base_url o) (verbose o))
                  SAINT_CATEGORIES tt
           else mret tt);;
          sample_stage (all_items cat) images_dir output_dir (base_url o)
            (sample_size o) (verbose o) (force o)
    end.

End Platform.

(** ** A concrete platform: flat POSIX paths

    Paths are slash-separated strings taken literally (no normalisation);
    an image decodes when its file is non-empty; documents are printed on
    one line; the catalog is comma-separated text without quoting. It is
    used to run the definitions on concrete worlds. *)

Module Posix.

Definition path_join (d name : string) : string := d +:+ "/" +:+ name.

(** The text after the last occurrence of [c] (all of it if none). *)
Fixpoint after_last (c : ascii) (s : string) : string :=
  match s with
  | EmptyString => EmptyString
  | String a s' =>
      if existsb (Ascii.eqb c) (chars s') then after_last c s'
      else if Ascii.eqb a c then s' else s
  end.

(** The text before the last occurrence of [c] (empty if none). *)
Fixpoint before_last (c : ascii) (s : string) : string :=
  match s with
  | EmptyString => EmptyString
  | String a s' =>
      if existsb (Ascii.eqb c) (chars s') then String a (before_last c s')
      else EmptyString
  end.

Definition path_name (p : string) : string := after_last "/" p.

Definition path_parent (p : string) : string := before_last "/" p.

Definition path_suffix (p : string) : string :=
  let name := path_name p in
  if existsb (Ascii.eqb ".") (chars name)
  then String "." (after_last "." name) else "".

Definition resolve_path (p : string) : string := p.

Definition dir_entry (d p : string) : bool :=
  String.eqb (path_parent p) d && negb (String.eqb (path_name p) "").

Fixpoint path_ancestors_fuel (n : nat) (d : string) : list string :=
  match n with
  | O => []
  | S n' =>
      let up := path_parent d in
      if String.eqb up "" then []
      else path_ancestors_fuel n' up ++ [up]
  end.

Definition path_ancestors (d : string) : list string :=
  path_ancestors_fuel (String.length d) d.

Definition Image_size (fs : gmap string node) (p : string)
    : string + (Z * Z) :=
  match fs !! p with
  | Some (File (String _ _)) => inr (640, 480)
  | Some (File EmptyString) => inl "cannot identify image file"
  | Some Dir => inl "Is a directory"
  | None => inl "No such file or directory"
  end.

Definition quoted (s : string) : string :=
  let q := String (ascii_of_nat 34) EmptyString in q +:+ s +:+ q.

Fixpoint json_dump (j : json) : string :=
  match j with
  | JNull => "null"
  | JInt z => pretty z
  | JStr s => quoted s
  | JList l =>
      "[" +:+
      (fix elems (l : list json) : string :=
         match l with
         | [] => ""
         | [x] => json_dump x
         | x :: l' => json_dump x +:+ ", " +:+ elems l'
         end) l +:+ "]"
  | JDict kv =>
      "{" +:+
      (fix members (kv : list (string * json)) : string :=
         match kv with
         | [] => ""
         | [(k, v)] => quoted k +:+ ": " +:+ json_dump v
         | (k, v) :: kv' =>
             quoted k +:+ ": " +:+ json_dump v +:+ ", " +:+ members kv'
         end) kv +:+ "}"
  end.

(** [s.split(c)] *)
Fixpoint split_on (c : ascii) (s : string) : list string :=
  match s with
  | EmptyString => [EmptyString]
  | String a s' =>
      if Ascii.eqb a c then EmptyString :: split_on c s'
      else match split_on c s' with
           | [] => [String a EmptyString]
           | w :: ws => String a w :: ws
           end
  end.

(** [dict(zip(header, fields))], short rows padded with [None]. *)
Fixpoint zip_row (header fields : list string) : row :=
  match header, fields with
  | [], _ => ∅
  | h :: header', [] => <[h := None]> (zip_row header' [])
  | h :: header', f :: fields' => <[h := Some f]> (zip_row header' fields')
  end.

Definition DictReader (text : string) : list row :=
  match List.filter (fun l => negb (String.eqb l "")) (split_on "010" text) with
  | [] => []
  | header :: lines =>
      map (fun l => zip_row (split_on "," header) (split_on "," l)) lines
  end.

Definition can_write (fs : gmap string node) (p : string) : bool :=
  is_dir fs (path_parent p) && negb (is_dir fs p).

Definition find_image_file := find_image_file path_join.
Definition get_image_dimensions := get_image_dimensions Image_size.
Definition build_canvases := build_canvases path_join path_name Image_size.
Definition create_multi_image_manifest :=
  create_multi_image_manifest path_join path_name Image_size json_dump
    can_write.
Definition load_csv_data := load_csv_data DictReader.
Definition generate_manifests :=
  generate_manifests path_join path_name path_suffix path_join resolve_path
    dir_entry path_ancestors Image_size json_dump DictReader can_write.

(** A small data set: four catalogued items, three of them with an image. *)
Definition artdl_csv : string :=
  "item,set,11H(JEROME),11H(PAUL)
a,train,1,0
b,test,0,1
c,val,1,1
d,other,0,0
".

Definition disk : gmap string node :=
  list_to_map
    [ ("/data", Dir);
      ("/data/ArtDL.csv", File artdl_csv);
      ("/data/images", Dir);
      ("/data/images/a.jpg", File "JFIF");
      ("/data/images/b.png", File "PNG");
      ("/data/images/c.TIF", File "");
      ("/out", Dir) ].

Definition opts : options :=
  {| csv_file := "/data/ArtDL.csv";
     images_dir := "/data/images";
     output_dir := "/out/collections";
     base_url := "http://localhost:8182";
     sample_size := Some 3;
     generate_splits := false;
     generate_saints := false;
     generate_all := false;
     verbose := false;
     force := false |}.

(** The disk once the output directory exists, and with a split manifest
    left there by an earlier run. *)
Definition disk_made : gmap string node :=
  <["/out/collections" := Dir]> disk.





End Posix.

(** ** Vocabulary for the further properties *)

(** The row's [set] value is one of the three bucket names. *)
Definition known_split (r : row) : bool :=
  in_split "train" r || in_split "test" r || in_split "val" r.

(** The key of the [KeyError] a row that cannot be indexed raises: [item] is
    read before [set]. *)
Definition missing_key (r : row) : string :=
  match r !! "item" with
  | None => "item"
  | Some _ => "set"
  end.

(** Two worlds agree on every path outside [P]. *)
Definition unchanged_outside (P : string -> Prop) (w w' : world) : Prop :=
  forall p, ~ P p -> files w' !! p = files w !! p.

(** Every path of the first world is still there in the second. *)
Definition keeps_paths (w w' : world) : Prop :=
  forall p, is_Some (files w !! p) -> is_Some (files w' !! p).

(** A computation takes every world to one related to it by [R], whether it
    returns or raises. *)
Definition preserves {A} (R : world -> world -> Prop) (m : M A) : Prop :=
  forall w, R w (snd (m w)).

(** The paths a run may change: the output directory with the directories
    above it, and the [*.json] names joined to it. *)
Definition output_target (os_path_join : string -> string -> string)
    (path_ancestors : string -> list string) (out p : string) : Prop :=
  In p (path_ancestors out ++ [out]) \/
  exists name, p = os_path_join out (name +:+ ".json").

(** The file names a run can write: one per split bucket, one per category,
    and the sample. *)
Definition target_filenames : list string :=
  map (fun kv => fst kv +:+ ".json") (set_data empty_catalog)
  ++ map (fun saint => sanitize_filename saint +:+ ".json") SAINT_CATEGORIES
  ++ ["sample.json"].

(** * Properties *)

(** ** Strings *)

Lemma append_nil_l (s : string) : "" +:+ s = s.
Proof. reflexivity. Qed.

Lemma append_cons (a : ascii) (s t : string) :
  String a s +:+ t = String a (s +:+ t).
Proof. reflexivity. Qed.

Lemma append_assoc (a b c : string) : (a +:+ b) +:+ c = a +:+ (b +:+ c).
Proof.
  induction a as [|x a IH]; [reflexivity|].
  rewrite !append_cons. now rewrite IH.
Qed.

Lemma chars_append (a b : string) : chars (a +:+ b) = chars a ++ chars b.
Proof.
  induction a as [|x a IH]; [reflexivity|].
  rewrite append_cons. simpl. now rewrite IH.
Qed.

Lemma chars_inj (a b : string) : chars a = chars b -> a = b.
Proof.
  revert b. induction a as [|x a IH]; intros [|y b] H; simpl in H;
    try discriminate; [reflexivity|].
  injection H as -> H. f_equal. now apply IH.
Qed.

Lemma starts_with_app (p t : list ascii) : starts_with p (p ++ t) = true.
Proof.
  induction p as [|a p IH]; [reflexivity|].
  simpl. now rewrite Ascii.eqb_refl, IH.
Qed.

Lemma starts_with_app_same (a x y : list ascii) :
  starts_with (a ++ x) (a ++ y) = starts_with x y.
Proof.
  induction a as [|c a IH]; [reflexivity|].
  simpl. now rewrite Ascii.eqb_refl, IH.
Qed.

Lemma has_prefix_append (p t : string) : has_prefix p (p +:+ t) = true.
Proof. unfold has_prefix. rewrite chars_append. apply starts_with_app. Qed.

Lemma has_prefix_append_same (a x y : string) :
  has_prefix (a +:+ x) (a +:+ y) = has_prefix x y.
Proof. unfold has_prefix. rewrite !chars_append. apply starts_with_app_same. Qed.

(** ** sanitize_filename *)

Lemma sanitize_filename_cons (a : ascii) (s : string) :
  sanitize_filename (String a s) = sanitize_char a +:+ sanitize_filename s.
Proof.
  unfold sanitize_filename, sanitize_char. simpl.
  destruct (Ascii.eqb_spec a "(") as [->|H1]; [reflexivity|].
  simpl. destruct (Ascii.eqb_spec a ")") as [->|H2]; [reflexivity|].
  simpl. destruct (Ascii.eqb_spec a " ") as [->|H3]; reflexivity.
Qed.

Lemma sanitize_char_clean (a c : ascii) :
  In c (chars (sanitize_char a)) -> c <> "("%char /\ c <> ")"%char /\ c <> " "%char.
Proof.
  unfold sanitize_char.
  destruct (Ascii.eqb_spec a "(") as [->|H1].
  { simpl. intros [<-|[]]. repeat split; discriminate. }
  destruct (Ascii.eqb_spec a ")") as [->|H2]; [intros []|].
  destruct (Ascii.eqb_spec a " ") as [->|H3].
  { simpl. intros [<-|[]]. repeat split; discriminate. }
  simpl. intros [<-|[]]. auto.
Qed.

(** C8 (as amended). [sanitize_filename] works character by character: an
    opening parenthesis and a space each become one underscore, a closing
    parenthesis is deleted, every other character is kept; so no parenthesis
    or space remains, and "11H(JEROME)" becomes "11H_JEROME". *)
Theorem sanitize_filename_charwise :
  (forall name, sanitize_filename name = str_concat_map sanitize_char name) /\
  (forall name c, In c (chars (sanitize_filename name)) ->
     c <> "("%char /\ c <> ")"%char /\ c <> " "%char) /\
  sanitize_char "(" = "_" /\ sanitize_char " " = "_" /\ sanitize_char ")" = "" /\
  sanitize_filename "11H(JEROME)" = "11H_JEROME".
Proof.
  assert (Hmap : forall name,
             sanitize_filename name = str_concat_map sanitize_char name).
  { induction name as [|a s IH]; [reflexivity|].
    rewrite sanitize_filename_cons. simpl. now rewrite IH. }
  split; [exact Hmap|]. split; [|repeat split; reflexivity].
  intros name c. rewrite Hmap.
  induction name as [|a s IH]; simpl; [intros []|].
  rewrite chars_append, in_app_iff. intros [H|H]; [|now apply IH].
  now apply sanitize_char_clean in H.
Qed.

(** C8 (as stated) fails: a closing parenthesis is not replaced with an
    underscore, it is removed. *)
Lemma sanitize_filename_close_paren_removed :
  sanitize_filename "a)" = "a" /\ sanitize_filename "a)" <> "a_".
Proof. split; [reflexivity|discriminate]. Qed.

(** ** create_canvas *)

Lemma append_inv_head (a x y : string) : a +:+ x = a +:+ y -> x = y.
Proof.
  induction a as [|c a IH]; [auto|].
  rewrite !append_cons. intros [= H]. now apply IH.
Qed.

Lemma append_inv_tail (a b c : string) : a +:+ c = b +:+ c -> a = b.
Proof.
  intros H. apply chars_inj. apply (f_equal chars) in H.
  rewrite !chars_append in H. now apply app_inv_tail in H.
Qed.

(** Two texts that end in a slash followed by slash-free text agree on both
    parts. *)
Lemma append_slash_inj (a b s t : string) :
  ~ In "/"%char (chars s) -> ~ In "/"%char (chars t) ->
  a +:+ String "/" s = b +:+ String "/" t -> a = b /\ s = t.
Proof.
  revert b. induction a as [|x a IH]; intros [|y b] Hs Ht H.
  - rewrite !append_nil_l in H. injection H as ->. auto.
  - rewrite append_nil_l, append_cons in H. injection H as _ ->.
    exfalso. apply Hs. rewrite chars_append, in_app_iff. right. now left.
  - rewrite append_nil_l, append_cons in H. injection H as _ <-.
    exfalso. apply Ht. rewrite chars_append, in_app_iff. right. now left.
  - rewrite !append_cons in H. injection H as -> H'.
    destruct (IH b Hs Ht H') as [-> ->]. auto.
Qed.

Lemma pretty_N_char_no_slash (x : N) : pretty_N_char x <> "/"%char.
Proof. unfold pretty_N_char. repeat case_match; discriminate. Qed.

Lemma pretty_N_go_no_slash (x : N) (s : string) :
  ~ In "/"%char (chars s) -> ~ In "/"%char (chars (pretty_N_go x s)).
Proof.
  revert s. induction (N.lt_wf_0 x) as [x _ IH]; intros s Hs.
  destruct (decide (x = 0)%N) as [->|Hx]; [now rewrite pretty_N_go_0|].
  rewrite pretty_N_go_step by lia. apply IH.
  - apply N.div_lt; lia.
  - simpl. intros [H|H]; [|auto].
    now apply (pretty_N_char_no_slash (x `mod` 10)%N).
Qed.

Lemma pretty_N_no_slash (x : N) : ~ In "/"%char (chars (pretty x)).
Proof.
  unfold pretty, pretty_N. case_decide.
  - simpl. intros [E|[]]. discriminate.
  - apply pretty_N_go_no_slash. simpl. auto.
Qed.

Lemma pretty_Z_no_slash (z : Z) : ~ In "/"%char (chars (pretty z)).
Proof.
  destruct z as [|p|p]; unfold pretty, pretty_Z.
  - simpl. intros [E|[]]. discriminate.
  - apply (pretty_N_no_slash (Npos p)).
  - rewrite chars_append, in_app_iff. intros [E|E].
    + simpl in E. destruct E as [E|[]]. discriminate.
    + now apply (pretty_N_no_slash (Npos p)).
Qed.

(** For a known base URL, an identifier of the shape
    [{base_url}/collections/{manifest_id}/{kind}/{index}] determines the
    manifest id and the index. *)
Lemma collections_id_inj (kind base_url m1 m2 : string) (i1 i2 : Z) :
  collections_prefix base_url m1 +:+ kind +:+ "/" +:+ pretty i1
  = collections_prefix base_url m2 +:+ kind +:+ "/" +:+ pretty i2 ->
  m1 = m2 /\ i1 = i2.
Proof.
  unfold collections_prefix. rewrite !append_assoc. intros H.
  do 2 apply append_inv_head in H.
  assert (E : forall (m : string) (i : Z),
             m +:+ "/" +:+ kind +:+ "/" +:+ pretty i
             = (m +:+ "/" +:+ kind) +:+ String "/" (pretty i)).
  { intros m i. now rewrite !append_assoc. }
  rewrite !E in H.
  apply append_slash_inj in H; try apply pretty_Z_no_slash.
  destruct H as [H1 H2]. apply append_inv_tail in H1.
  split; [exact H1|]. now apply (inj pretty).
Qed.

Lemma has_prefix_collections_iiif (base_url manifest_id rest : string) :
  has_prefix (collections_prefix base_url manifest_id)
    (base_url +:+ "/iiif/3/" +:+ rest) = false.
Proof.
  unfold collections_prefix. rewrite has_prefix_append_same. reflexivity.
Qed.

(** C2 (as amended). The Canvas id, the AnnotationPage id and the Annotation
    id of a canvas are [{base_url}/collections/{manifest_id}/] followed by
    [canvas/], [page/] or [annotation/] and the decimal index, so for a known
    base URL each of the three determines manifest id and index. The
    Image-service id is [{base_url}/iiif/3/{image_filename}]: it never starts
    with the collections prefix and does not depend on manifest id or index. *)
Theorem create_canvas_identifiers :
  forall (item_id : cell) (image_filename base_url : string)
         (width height canvas_index : Z) (manifest_id : string),
    let c := create_canvas item_id image_filename base_url width height
               canvas_index manifest_id in
    let P := collections_prefix base_url manifest_id in
    (canvas_id c = Some (JStr (P +:+ "canvas/" +:+ pretty canvas_index)) /\
     page_id c = Some (JStr (P +:+ "page/" +:+ pretty canvas_index)) /\
     annotation_id c = Some (JStr (P +:+ "annotation/" +:+ pretty canvas_index)) /\
     service_id c = Some (JStr (base_url +:+ "/iiif/3/" +:+ image_filename))) /\
    (has_prefix P (P +:+ "canvas/" +:+ pretty canvas_index) = true /\
     has_prefix P (P +:+ "page/" +:+ pretty canvas_index) = true /\
     has_prefix P (P +:+ "annotation/" +:+ pretty canvas_index) = true /\
     has_prefix P (base_url +:+ "/iiif/3/" +:+ image_filename) = false) /\
    (forall item_id' image_filename' width' height' canvas_index' manifest_id',
       let c' := create_canvas item_id' image_filename' base_url width' height'
                   canvas_index' manifest_id' in
       (canvas_id c' = canvas_id c \/ page_id c' = page_id c \/
        annotation_id c' = annotation_id c) ->
       manifest_id' = manifest_id /\ canvas_index' = canvas_index) /\
    (forall canvas_index' manifest_id',
       service_id (create_canvas item_id image_filename base_url width height
                     canvas_index' manifest_id') = service_id c).
Proof.
  intros item_id image_filename base_url width height canvas_index manifest_id
         c P.
  assert (Hshape : forall (kind m : string) (i : Z),
             base_url +:+ "/collections/" +:+ m +:+ String "/" (kind +:+ pretty i)
             = collections_prefix base_url m +:+ kind +:+ pretty i).
  { intros kind m i. unfold collections_prefix. now rewrite !append_assoc. }
  split; [|split; [|split]].
  - unfold c, P, canvas_id, page_id, annotation_id, service_id. cbn.
    repeat split; do 2 f_equal; apply Hshape.
  - repeat split; try apply has_prefix_append.
    apply has_prefix_collections_iiif.
  - intros item_id' image_filename' width' height' canvas_index' manifest_id' c'.
    unfold c', c, canvas_id, page_id, annotation_id. cbn.
    intros [H|[H|H]]; injection H as H.
    + apply (collections_id_inj "canvas" base_url).
      etrans; [symmetry; apply (Hshape "canvas/")|].
      etrans; [exact H|]. apply (Hshape "canvas/").
    + apply (collections_id_inj "page" base_url).
      etrans; [symmetry; apply (Hshape "page/")|].
      etrans; [exact H|]. apply (Hshape "page/").
    + apply (collections_id_inj "annotation" base_url).
      etrans; [symmetry; apply (Hshape "annotation/")|].
      etrans; [exact H|]. apply (Hshape "annotation/").
  - intros canvas_index' manifest_id'. reflexivity.
Qed.

(** C2 (as stated) fails for the fourth identifier: the Image-service id of
    a canvas lies outside [{base_url}/collections/{manifest_id}/], and two
    canvases of different manifests and indices carry the same one. *)
Lemma service_id_outside_collections :
  let c := create_canvas (Some "a") "a.jpg" "http://localhost:8182" 640 480 1
             "train" in
  let c' := create_canvas (Some "a") "a.jpg" "http://localhost:8182" 640 480 7
              "test" in
  service_id c = Some (JStr "http://localhost:8182/iiif/3/a.jpg") /\
  has_prefix (collections_prefix "http://localhost:8182" "train")
    "http://localhost:8182/iiif/3/a.jpg" = false /\
  service_id c' = service_id c.
Proof. repeat split; reflexivity. Qed.

(** ** load_csv_data *)

Lemma bucket_in_spec (k : cell) (d : buckets) :
  bucket_in k d = true <-> exists s, k = Some s /\ In s (map fst d).
Proof.
  destruct k as [s|]; simpl.
  - rewrite existsb_exists. split.
    + intros (x & Hx & E). apply String.eqb_eq in E. subst. eauto.
    + intros (x & [= ->] & Hx). exists x. split; [auto|apply String.eqb_refl].
  - split; [discriminate|]. intros (s & E & _). discriminate.
Qed.

(** One row adds its item id to the buckets whose key is the row's [set]. *)
Lemma set_data_step (set_name item_id : cell) (d : buckets) :
  (if bucket_in set_name d then bucket_append (fmt set_name) item_id d else d)
  = map (fun kv =>
           (fst kv,
            snd kv ++ (if bool_decide (set_name = Some (fst kv))
                       then [item_id] else []))) d.
Proof.
  destruct (bucket_in set_name d) eqn:Hin.
  - apply bucket_in_spec in Hin as (s & -> & _). simpl.
    unfold bucket_append. apply map_ext. intros [k l]. simpl.
    destruct (String.eqb_spec k s) as [->|Hne].
    + now rewrite bool_decide_eq_true_2.
    + rewrite bool_decide_eq_false_2 by congruence. now rewrite app_nil_r.
  - symmetry. erewrite map_ext_in; [apply map_id|].
    intros [k l] Hkl. simpl. rewrite bool_decide_eq_false_2.
    + now rewrite app_nil_r.
    + intros ->. assert (bucket_in (Some k) d = true); [|congruence].
      apply bucket_in_spec. exists k. split; [auto|].
      apply in_map_iff. now exists (k, l).
Qed.

(** One row adds its item id to the category buckets it is flagged for. *)
Lemma saint_data_step (r : row) (item_id : cell) (cats : list string)
    (d : buckets) :
  NoDup cats ->
  fold_left
    (fun d saint =>
       if flag_set r saint then bucket_append saint item_id d else d) cats d
  = map (fun kv =>
           (fst kv,
            snd kv ++ (if existsb (String.eqb (fst kv)) cats
                          && flag_set r (fst kv)
                       then [item_id] else []))) d.
Proof.
  revert d. induction cats as [|c cats IH]; intros d Hnd.
  - simpl. symmetry. erewrite map_ext; [apply map_id|].
    intros [k l]. simpl. now rewrite app_nil_r.
  - apply NoDup_cons in Hnd as [Hc Hnd]. cbn [fold_left].
    rewrite IH by assumption.
    assert (Hd : (if flag_set r c then bucket_append c item_id d else d)
                 = map (fun kv => (fst kv, snd kv ++
                          (if String.eqb (fst kv) c && flag_set r c
                           then [item_id] else []))) d).
    { destruct (flag_set r c).
      - unfold bucket_append. apply map_ext. intros [k l]. simpl.
        now destruct (String.eqb k c); rewrite ?app_nil_r.
      - symmetry. erewrite map_ext; [apply map_id|].
        intros [k l]. simpl. now rewrite andb_false_r, app_nil_r. }
    rewrite Hd, map_map. apply map_ext. intros [k l]. simpl.
    rewrite <- app_assoc. f_equal.
    destruct (String.eqb_spec k c) as [->|Hne]; simpl.
    + assert (E : existsb (String.eqb c) cats = false).
      { apply not_true_is_false. intros E. apply existsb_exists in E.
        destruct E as (x & Hx & E). apply String.eqb_eq in E. subst x.
        now apply list_elem_of_In in Hx. }
      rewrite E. simpl. now rewrite app_nil_r.
    + reflexivity.
Qed.

Lemma SAINT_CATEGORIES_NoDup : NoDup SAINT_CATEGORIES.
Proof. apply (bool_decide_unpack _). vm_compute. exact I. Qed.

Lemma load_row_ok (c : catalog) (r : row) :
  row_ok r ->
  load_row c r
  = Ok {| all_items := all_items c ++ [field "item" r];
          set_data :=
            map (fun kv =>
                   (fst kv, snd kv ++ (if in_split (fst kv) r
                                       then [field "item" r] else [])))
                (set_data c);
          saint_data :=
            map (fun kv =>
                   (fst kv,
                    snd kv ++ (if existsb (String.eqb (fst kv)) SAINT_CATEGORIES
                                  && flag_set r (fst kv)
                               then [field "item" r] else [])))
                (saint_data c) |}.
Proof.
  intros [[item_id Hi] [set_name Hs]].
  unfold load_row, getitem, field, in_split, default. rewrite Hi, Hs.
  cbv beta iota.
  rewrite set_data_step, (saint_data_step r item_id) by apply SAINT_CATEGORIES_NoDup.
  f_equal. f_equal.
  apply map_ext. intros [k l]. cbn [fst snd]. do 2 f_equal.
  destruct (decide (set_name = Some k)) as [->|Hne].
  - now rewrite !bool_decide_eq_true_2.
  - rewrite !bool_decide_eq_false_2; congruence.
Qed.

Lemma load_row_no_item (c : catalog) (r : row) :
  r !! "item" = None -> load_row c r = Raise (KeyError "item").
Proof. intros H. unfold load_row, getitem. now rewrite H. Qed.

Lemma load_row_no_set (c : catalog) (r : row) :
  is_Some (r !! "item") -> r !! "set" = None ->
  load_row c r = Raise (KeyError "set").
Proof. intros [v Hv] H. unfold load_row, getitem. now rewrite Hv, H. Qed.

Lemma items_where_cons (f : row -> bool) (r : row) (rows : list row) :
  items_where f (r :: rows)
  = (if f r then [field "item" r] else []) ++ items_where f rows.
Proof. unfold items_where. simpl. now destruct (f r). Qed.

(** The loop over well-formed rows, from any starting catalog. *)
Lemma load_rows_from (rows : list row) (c : catalog) :
  Forall row_ok rows ->
  load_rows rows c
  = Ok {| all_items := all_items c ++ map (field "item") rows;
          set_data :=
            map (fun kv =>
                   (fst kv, snd kv ++ items_where (in_split (fst kv)) rows))
                (set_data c);
          saint_data :=
            map (fun kv =>
                   (fst kv,
                    snd kv ++
                    items_where
                      (fun r => existsb (String.eqb (fst kv)) SAINT_CATEGORIES
                                && flag_set r (fst kv)) rows))
                (saint_data c) |}.
Proof.
  intros Hok. revert c. induction Hok as [|r rows Hr Hrows IH]; intros c.
  - simpl. destruct c as [sd st al]. simpl. f_equal. f_equal.
    + symmetry. erewrite map_ext; [apply map_id|].
      intros [k l]. simpl. now rewrite app_nil_r.
    + symmetry. erewrite map_ext; [apply map_id|].
      intros [k l]. simpl. now rewrite app_nil_r.
    + now rewrite app_nil_r.
  - cbn [load_rows]. rewrite (load_row_ok c r Hr), IH. cbn [all_items set_data saint_data].
    f_equal. f_equal.
    + rewrite map_map. apply map_ext. intros [k l]. simpl.
      now rewrite items_where_cons, app_assoc.
    + rewrite map_map. apply map_ext. intros [k l]. cbn [fst snd].
      now rewrite items_where_cons, app_assoc.
    + simpl. now rewrite <- app_assoc.
Qed.

(** The three views the loader returns for well-formed rows. *)
Lemma load_rows_views (rows : list row) :
  Forall row_ok rows ->
  load_rows rows empty_catalog
  = Ok {| all_items := map (field "item") rows;
          set_data :=
            [ ("train", items_where (in_split "train") rows);
              ("test", items_where (in_split "test") rows);
              ("val", items_where (in_split "val") rows) ];
          saint_data :=
            map (fun saint =>
                   (saint, items_where (fun r => flag_set r saint) rows))
                SAINT_CATEGORIES |}.
Proof.
  intros Hok. rewrite (load_rows_from rows empty_catalog Hok). reflexivity.
Qed.

(** A row without the [set] field stops the loader with a [KeyError]. *)
Lemma load_rows_missing_set (rows rows' : list row) (r : row) :
  Forall row_ok rows -> is_Some (r !! "item") -> r !! "set" = None ->
  load_rows (rows ++ r :: rows') empty_catalog = Raise (KeyError "set").
Proof.
  intros Hok Hi Hs. generalize empty_catalog.
  induction Hok as [|r0 rows Hr Hrows IH]; intros c.
  - simpl. now rewrite (load_row_no_set c r Hi Hs).
  - simpl. rewrite (load_row_ok c r0 Hr). apply IH.
Qed.

Lemma items_where_app (f : row -> bool) (rows rows' : list row) :
  items_where f (rows ++ rows') = items_where f rows ++ items_where f rows'.
Proof. unfold items_where. now rewrite List.filter_app, map_app. Qed.

Lemma in_split_field (s : string) (r : row) :
  in_split s r = true -> field "set" r = Some s.
Proof.
  unfold in_split, field. intros H. apply bool_decide_eq_true_1 in H.
  now rewrite H.
Qed.

(** C4 (as amended). When every row carries the [item] and the [set] field
    (the loader indexes both with [row[...]], so both are mandatory), the
    loader returns, and the full list holds the item id of every row in row
    order, so its length is the number of rows, whatever the rows' split or
    category values. A row whose [set] value is none of train, test, val
    (an empty or unknown name, or the [None] of a short row) raises nothing,
    is in the full list, and leaves the split index as it is without it. *)
Theorem load_rows_full_list (rows : list row) :
  Forall row_ok rows ->
  exists c,
    load_rows rows empty_catalog = Ok c /\
    all_items c = map (field "item") rows /\
    length (all_items c) = length rows /\
    forall pre r post,
      rows = pre ++ r :: post ->
      field "set" r <> Some "train" ->
      field "set" r <> Some "test" ->
      field "set" r <> Some "val" ->
      In (field "item" r) (all_items c) /\
      exists c', load_rows (pre ++ post) empty_catalog = Ok c' /\
                 set_data c = set_data c'.
Proof.
  intros Hok. eexists. split; [apply (load_rows_views rows Hok)|].
  cbn [all_items set_data]. split; [reflexivity|].
  split; [apply length_map|].
  intros pre r post -> Htrain Htest Hval. split.
  { apply in_map. apply in_or_app. right. now left. }
  assert (Hok' : Forall row_ok (pre ++ post)).
  { apply Forall_app in Hok as [Hpre Hpost]. apply Forall_app. split; [auto|].
    now inversion Hpost. }
  eexists. split; [apply (load_rows_views _ Hok')|]. cbn [set_data].
  assert (Hskip : forall s, field "set" r <> Some s ->
            items_where (in_split s) (pre ++ r :: post)
            = items_where (in_split s) (pre ++ post)).
  { intros s Hs. rewrite !items_where_app, items_where_cons.
    destruct (in_split s r) eqn:E; [|reflexivity].
    now apply in_split_field in E. }
  now rewrite !Hskip.
Qed.

(** C4 (as stated) fails: the [set] field is not optional. A catalog whose
    header has no [set] column makes the loader raise [KeyError], so no full
    list is produced at all. *)
Lemma load_rows_set_column_required :
  Posix.DictReader "item
a
" = [ {[ "item" := Some "a" ]} ] /\
  load_rows (Posix.DictReader "item
a
") empty_catalog = Raise (KeyError "set").
Proof. split; vm_compute; reflexivity. Qed.

Lemma assoc_split_views (rows : list row) (s : string) (l : list cell) :
  assoc s [ ("train", items_where (in_split "train") rows);
            ("test", items_where (in_split "test") rows);
            ("val", items_where (in_split "val") rows) ] = Some l ->
  l = items_where (in_split s) rows.
Proof.
  cbn [assoc].
  destruct (String.eqb_spec s "train") as [->|_]; [now intros [= <-]|].
  destruct (String.eqb_spec s "test") as [->|_]; [now intros [= <-]|].
  destruct (String.eqb_spec s "val") as [->|_]; [now intros [= <-]|].
  discriminate.
Qed.

Lemma items_where_inv (f : row -> bool) (rows : list row) (x : cell) :
  In x (items_where f rows) ->
  exists r, In r rows /\ f r = true /\ field "item" r = x.
Proof.
  unfold items_where. rewrite in_map_iff. intros (r & Hx & Hr).
  apply List.filter_In in Hr as [Hr Hf]. eauto.
Qed.

Lemma NoDup_map_inj {A B} (f : A -> B) (l : list A) (a b : A) :
  NoDup (map f l) -> In a l -> In b l -> f a = f b -> a = b.
Proof.
  induction l as [|x l IH]; [intros _ []|].
  simpl. rewrite NoDup_cons. intros [Hx Hnd] Ha Hb E.
  assert (Hfresh : forall y, In y l -> f x <> f y).
  { intros y Hy Hxy. apply Hx. apply list_elem_of_In, in_map_iff. eauto. }
  destruct Ha as [->|Ha], Hb as [->|Hb]; auto.
  - now apply Hfresh in Hb.
  - symmetry in E. now apply Hfresh in Ha.
Qed.

(** C5 (as amended). For well-formed rows the split bucket of each of the
    three names holds, in row order, the item ids of exactly the rows whose
    [set] field equals that name, and the bucket of each category holds the
    item ids of the rows flagged "1" for it (any number of categories per
    row). A row therefore feeds at most one split bucket; and when no item
    id is repeated across rows, no item id is in two split buckets. *)
Theorem split_buckets_by_set_field (rows : list row) :
  Forall row_ok rows ->
  exists c,
    load_rows rows empty_catalog = Ok c /\
    set_data c = [ ("train", items_where (in_split "train") rows);
                   ("test", items_where (in_split "test") rows);
                   ("val", items_where (in_split "val") rows) ] /\
    saint_data c = map (fun saint =>
                          (saint, items_where (fun r => flag_set r saint) rows))
                       SAINT_CATEGORIES /\
    (forall r s1 s2, in_split s1 r = true -> in_split s2 r = true -> s1 = s2) /\
    (NoDup (map (field "item") rows) ->
     forall s1 s2 l1 l2 x,
       s1 <> s2 ->
       assoc s1 (set_data c) = Some l1 ->
       assoc s2 (set_data c) = Some l2 ->
       In x l1 -> ~ In x l2).
Proof.
  intros Hok. eexists. split; [apply (load_rows_views rows Hok)|].
  cbn [set_data saint_data]. split; [reflexivity|]. split; [reflexivity|].
  assert (Hone : forall r s1 s2,
             in_split s1 r = true -> in_split s2 r = true -> s1 = s2).
  { intros r s1 s2 H1 H2. apply in_split_field in H1, H2. congruence. }
  split; [exact Hone|].
  intros Hnd s1 s2 l1 l2 x Hne H1 H2 Hx1 Hx2.
  apply assoc_split_views in H1, H2. subst l1 l2.
  apply items_where_inv in Hx1 as (r1 & Hr1 & Hs1 & E1).
  apply items_where_inv in Hx2 as (r2 & Hr2 & Hs2 & E2).
  assert (r1 = r2) as ->.
  { apply (NoDup_map_inj (field "item") rows); congruence. }
  apply Hne. now apply (Hone r2).
Qed.

(** C5 (as stated) fails when an item id occurs in two rows with different
    splits: the id then sits in two split buckets. *)
Lemma repeated_item_in_two_split_buckets :
  exists c,
    load_rows (Posix.DictReader "item,set
a,train
a,test
") empty_catalog = Ok c /\
    assoc "train" (set_data c) = Some [Some "a"] /\
    assoc "test" (set_data c) = Some [Some "a"].
Proof. eexists. split; [vm_compute; reflexivity|]. split; reflexivity. Qed.

(** ** The resolver, the manifest builder and the driver *)

Section PlatformFacts.

Variable path_join : string -> string -> string.
Variable path_name : string -> string.
Variable path_suffix : string -> string.
Variable os_path_join : string -> string -> string.
Variable resolve_path : string -> string.
Variable dir_entry : string -> string -> bool.
Variable path_ancestors : string -> list string.
Variable Image_size : gmap string node -> string -> string + (Z * Z).
Variable json_dump : json -> string.
Variable DictReader : string -> list row.
Variable can_write : gmap string node -> string -> bool.

#[local] Abbreviation candidate dir item ext := (path_join dir (fmt item +:+ ext)).
#[local] Abbreviation probe' := (probe path_join).
#[local] Abbreviation find_image_file' := (find_image_file path_join).
#[local] Abbreviation located' := (located path_join).
#[local] Abbreviation get_image_dimensions' := (get_image_dimensions Image_size).
#[local] Abbreviation canvas_step' := (canvas_step path_join path_name Image_size).
#[local] Abbreviation build_canvases' := (build_canvases path_join path_name Image_size).
#[local] Abbreviation canvases_from' := (canvases_from path_join path_name Image_size).
#[local] Abbreviation warnings_from' := (warnings_from path_join Image_size).
#[local] Abbreviation canvas_dimensions' := (canvas_dimensions Image_size).
#[local] Abbreviation write_json' := (write_json json_dump can_write).
#[local] Abbreviation create_multi_image_manifest' := (create_multi_image_manifest path_join path_name Image_size json_dump
     can_write).

(** *** find_image_file *)

Lemma probe_skip (fs : gmap string node) (item : cell) (dir : string)
    (pre exts : list string) :
  Forall (fun e => path_exists fs (candidate dir item e) = false) pre ->
  probe' fs item dir (pre ++ exts) = probe' fs item dir exts.
Proof.
  induction 1 as [|e pre He _ IH]; [reflexivity|].
  simpl. now rewrite He.
Qed.

Lemma probe_spec (fs : gmap string node) (item : cell) (dir : string)
    (exts : list string) :
  match probe' fs item dir exts with
  | Some p =>
      exists pre ext post,
        exts = pre ++ ext :: post /\ p = candidate dir item ext /\
        path_exists fs p = true /\
        Forall (fun e => path_exists fs (candidate dir item e) = false) pre
  | None =>
      Forall (fun e => path_exists fs (candidate dir item e) = false) exts
  end.
Proof.
  induction exts as [|e exts IH]; simpl; [constructor|].
  destruct (path_exists fs (candidate dir item e)) eqn:He.
  - exists [], e, exts. repeat split; auto.
  - destruct (probe' fs item dir exts) as [p|].
    + destruct IH as (pre & ext & post & -> & -> & Hp & Hpre).
      exists (e :: pre), ext, post. repeat split; auto.
    + constructor; auto.
Qed.

Lemma probe_agree (fs fs' : gmap string node) (item : cell) (dir : string)
    (exts : list string) :
  (forall e, In e exts ->
     path_exists fs' (candidate dir item e)
     = path_exists fs (candidate dir item e)) ->
  probe' fs' item dir exts = probe' fs item dir exts.
Proof.
  induction exts as [|e exts IH]; intros H; [reflexivity|].
  simpl. rewrite (H e) by (now left).
  rewrite IH; [reflexivity|]. intros e' He'. apply H. now right.
Qed.

(** C7. [find_image_file] probes the ten extensions in the fixed order
    .jpg .jpeg .png .tif .tiff .JPG .JPEG .PNG .TIF .TIFF and returns the
    first candidate [{images_dir}/{item_id}{ext}] that exists: it answers
    a path exactly when that path is the candidate of an extension that
    exists while the candidates of all earlier extensions do not, and
    [None] exactly when no candidate exists. The answer depends only on
    which of the ten candidates exist, so two runs over directories with
    the same contents return the same path, also when several files share
    the stem. *)
Theorem find_image_file_first_match :
  forall (fs : gmap string node) (item_id : cell) (images_dir : string),
    extensions = [".jpg"; ".jpeg"; ".png"; ".tif"; ".tiff";
                  ".JPG"; ".JPEG"; ".PNG"; ".TIF"; ".TIFF"] /\
    (forall p,
       find_image_file' fs item_id images_dir = Some p <->
       exists pre ext post,
         extensions = pre ++ ext :: post /\
         p = candidate images_dir item_id ext /\
         path_exists fs p = true /\
         Forall (fun e =>
                   path_exists fs (candidate images_dir item_id e) = false)
                pre) /\
    (find_image_file' fs item_id images_dir = None <->
     Forall (fun e => path_exists fs (candidate images_dir item_id e) = false)
            extensions) /\
    (forall fs',
       (forall e, In e extensions ->
          path_exists fs' (candidate images_dir item_id e)
          = path_exists fs (candidate images_dir item_id e)) ->
       find_image_file' fs' item_id images_dir
       = find_image_file' fs item_id images_dir).
Proof.
  intros fs item_id images_dir. split; [reflexivity|].
  unfold find_image_file.
  pose proof (probe_spec fs item_id images_dir extensions) as Hspec.
  split; [|split].
  - intros p. split.
    + intros E. rewrite E in Hspec. exact Hspec.
    + intros (pre & ext & post & -> & -> & Hp & Hpre).
      rewrite (probe_skip _ _ _ _ _ Hpre). simpl. now rewrite Hp.
  - split.
    + intros E. rewrite E in Hspec. exact Hspec.
    + intros Hnone. destruct (probe' fs item_id images_dir extensions) as [p|];
        [|reflexivity].
      destruct Hspec as (pre & ext & post & E & -> & Hp & _).
      rewrite E in Hnone. apply Forall_app in Hnone as [_ Hnone].
      inversion Hnone; congruence.
  - intros fs' H. now apply probe_agree.
Qed.

(** *** get_image_dimensions *)

Lemma get_image_dimensions_run (image_path : string) (w : world) :
  get_image_dimensions' image_path w
  = (Ok (canvas_dimensions' (files w) image_path),
     World (files w)
       (stderr w ++ match Image_size (files w) image_path with
                    | inl e => [dimension_warning image_path e]
                    | inr _ => []
                    end)).
Proof.
  unfold get_image_dimensions, canvas_dimensions, dimension_warning,
    mbind, M_bind, get_files, mret, M_ret, echo_err.
  destruct (Image_size (files w) image_path) as [e|size]; cbn.
  - reflexivity.
  - destruct w. cbn. now rewrite app_nil_r.
Qed.

(** *** The loop of create_multi_image_manifest *)

Lemma located_spec (fs : gmap string node) (item_id : cell) (dir : string) :
  located' fs item_id dir = true <->
  exists a f, find_image_file' fs item_id dir = Some (String a f).
Proof.
  unfold located. destruct (find_image_file' fs item_id dir) as [[|a f]|].
  - split; [discriminate|]. intros (a & f & [=]).
  - split; eauto.
  - split; [discriminate|]. intros (a & f & [=]).
Qed.

Lemma canvas_step_located (manifest_id dir base_url : string) (st : loop_state)
    (item_id : cell) (w : world) (a : ascii) (f : string) :
  find_image_file' (files w) item_id dir = Some (String a f) ->
  canvas_step' manifest_id dir base_url st item_id w
  = (Ok {| canvases :=
             canvases st ++
             [create_canvas item_id (path_name (String a f)) base_url
                (fst (canvas_dimensions' (files w) (String a f)))
                (snd (canvas_dimensions' (files w) (String a f)))
                (canvas_index st) manifest_id];
           canvas_index := canvas_index st + 1;
           skipped := skipped st |},
     World (files w)
       (stderr w ++ match Image_size (files w) (String a f) with
                    | inl e => [dimension_warning (String a f) e]
                    | inr _ => []
                    end)).
Proof.
  intros Hfind. unfold canvas_step.
  unfold mbind at 1. unfold M_bind, get_files. cbv beta iota. rewrite Hfind.
  unfold mbind, M_bind. rewrite get_image_dimensions_run. reflexivity.
Qed.

Lemma canvas_step_unlocated (manifest_id dir base_url : string)
    (st : loop_state) (item_id : cell) (w : world) :
  located' (files w) item_id dir = false ->
  canvas_step' manifest_id dir base_url st item_id w
  = (Ok {| canvases := canvases st;
           canvas_index := canvas_index st;
           skipped := skipped st + 1 |}, w).
Proof.
  unfold located, canvas_step. intros Hloc.
  unfold mbind, M_bind, get_files. cbv beta iota.
  destruct (find_image_file' (files w) item_id dir) as [[|a f]|];
    (discriminate || reflexivity).
Qed.

Lemma for_each_cons {A S} (body : S -> A -> M S) (x : A) (l : list A) (s : S)
    (w : world) :
  for_each body (x :: l) s w
  = match body s x w with
    | (Ok s', w') => for_each body l s' w'
    | (Raise e, w') => (Raise e, w')
    end.
Proof. reflexivity. Qed.

Lemma loop_result_eq (c1 c2 : list json) (i1 i2 k1 k2 : Z) (w1 w2 : world) :
  c1 = c2 -> i1 = i2 -> k1 = k2 -> w1 = w2 ->
  (Ok {| canvases := c1; canvas_index := i1; skipped := k1 |}, w1)
  = (Ok {| canvases := c2; canvas_index := i2; skipped := k2 |}, w2).
Proof. now intros -> -> -> ->. Qed.

(** The loop from any state: what it appends, where the index and the skip
    counter end, and what it prints; the files are left alone. *)
Lemma canvas_loop_run (manifest_id dir base_url : string) (ids : list cell)
    (st : loop_state) (w : world) :
  for_each (canvas_step' manifest_id dir base_url) ids st w
  = (Ok {| canvases :=
             canvases st ++
             canvases_from' (files w) manifest_id dir base_url ids
               (canvas_index st);
           canvas_index :=
             canvas_index st +
             Z.of_nat (length (List.filter
                                 (fun i => located' (files w) i dir) ids));
           skipped :=
             skipped st +
             Z.of_nat (length (List.filter
                                 (fun i => negb (located' (files w) i dir))
                                 ids)) |},
     World (files w) (stderr w ++ warnings_from' (files w) dir ids)).
Proof.
  revert st w. induction ids as [|item_id ids IH]; intros st w.
  - destruct st, w. cbn. now rewrite !app_nil_r, !Z.add_0_r.
  - rewrite for_each_cons. cbn [canvases_from warnings_from List.filter].
    destruct (located' (files w) item_id dir) eqn:Hloc.
    + apply located_spec in Hloc as (a & f & Hfind).
      rewrite (canvas_step_located _ _ _ _ _ _ _ _ Hfind), IH, Hfind.
      cbn [files stderr canvases canvas_index skipped negb length].
      apply loop_result_eq; [now rewrite <- app_assoc|lia|lia|].
      now rewrite <- app_assoc.
    + rewrite (canvas_step_unlocated _ _ _ _ _ _ Hloc), IH.
      cbn [files stderr canvases canvas_index skipped negb length].
      unfold located in Hloc.
      destruct (find_image_file' (files w) item_id dir) as [[|a f]|];
        try discriminate; apply loop_result_eq; (reflexivity || lia).
Qed.

Lemma build_canvases_run (manifest_id dir base_url : string) (ids : list cell)
    (w : world) :
  build_canvases' manifest_id dir base_url ids w
  = (Ok {| canvases := canvases_from' (files w) manifest_id dir base_url ids 1;
           canvas_index :=
             1 + Z.of_nat (length (List.filter
                                     (fun i => located' (files w) i dir) ids));
           skipped :=
             Z.of_nat (length (List.filter
                                 (fun i => negb (located' (files w) i dir))
                                 ids)) |},
     World (files w) (stderr w ++ warnings_from' (files w) dir ids)).
Proof. unfold build_canvases. now rewrite canvas_loop_run. Qed.

Lemma canvases_from_length (fs : gmap string node)
    (manifest_id dir base_url : string) (ids : list cell) (idx : Z) :
  length (canvases_from' fs manifest_id dir base_url ids idx)
  = length (List.filter (fun i => located' fs i dir) ids).
Proof.
  revert idx. induction ids as [|item_id ids IH]; intros idx; [reflexivity|].
  cbn [canvases_from List.filter]. unfold located at 1.
  destruct (find_image_file' fs item_id dir) as [[|a f]|]; cbn [length];
    now rewrite IH.
Qed.

Lemma canvases_from_ids (fs : gmap string node)
    (manifest_id dir base_url : string) (ids : list cell) (start : nat) :
  map canvas_id
    (canvases_from' fs manifest_id dir base_url ids (Z.of_nat start))
  = map (fun i : nat =>
           Some (JStr (base_url +:+ "/collections/" +:+ manifest_id
                         +:+ "/canvas/" +:+ pretty (Z.of_nat i))))
        (seq start
           (length (canvases_from' fs manifest_id dir base_url ids
                      (Z.of_nat start)))).
Proof.
  revert start. induction ids as [|item_id ids IH]; intros start;
    [reflexivity|].
  cbn [canvases_from].
  destruct (find_image_file' fs item_id dir) as [[|a f]|]; try apply IH.
  replace (Z.of_nat start + 1) with (Z.of_nat (S start)) by lia.
  cbn [length seq map]. now rewrite IH.
Qed.

Lemma canvases_from_labels (fs : gmap string node)
    (manifest_id dir base_url : string) (ids : list cell) (idx : Z) :
  map canvas_label (canvases_from' fs manifest_id dir base_url ids idx)
  = map (fun i => Some (json_of_cell i))
        (List.filter (fun i => located' fs i dir) ids).
Proof.
  revert idx. induction ids as [|item_id ids IH]; intros idx; [reflexivity|].
  cbn [canvases_from List.filter]. unfold located at 1.
  destruct (find_image_file' fs item_id dir) as [[|a f]|]; try apply IH.
  cbn [map]. now rewrite IH.
Qed.

Lemma filter_split_length {A} (f : A -> bool) (l : list A) :
  (length (List.filter f l) + length (List.filter (fun x => negb (f x)) l)
   = length l)%nat.
Proof.
  induction l as [|x l IH]; [reflexivity|].
  simpl. destruct (f x); simpl; lia.
Qed.

Lemma filter_none {A} (f : A -> bool) (l : list A) :
  (forall x, In x l -> f x = false) -> List.filter f l = [].
Proof.
  induction l as [|x l IH]; intros H; [reflexivity|].
  simpl. rewrite (H x) by (now left). apply IH. intros y Hy. apply H. now right.
Qed.

Lemma filter_all {A} (f : A -> bool) (l : list A) :
  (forall x, In x l -> f x = true) -> List.filter f l = l.
Proof.
  induction l as [|x l IH]; intros H; [reflexivity|].
  simpl. rewrite (H x) by (now left). f_equal. apply IH. intros y Hy.
  apply H. now right.
Qed.

Lemma write_json_run (p : string) (doc : json) (w : world) :
  can_write (files w) p = true ->
  write_json' p doc w
  = (Ok tt, World (<[p := File (json_dump doc)]> (files w)) (stderr w)).
Proof. intros H. unfold write_json. now rewrite H. Qed.

(** The manifest builder on a writable output path. *)
Lemma create_multi_image_manifest_run
    (manifest_id label description : string) (ids : list cell)
    (dir base_url output_path : string) (verbose : bool) (w : world) :
  can_write (files w) output_path = true ->
  create_multi_image_manifest' manifest_id label description ids dir base_url
    output_path verbose w
  = (Ok (manifest_doc manifest_id label description base_url
           (canvases_from' (files w) manifest_id dir base_url ids 1)),
     World (<[output_path :=
                File (json_dump
                        (manifest_doc manifest_id label description base_url
                           (canvases_from' (files w) manifest_id dir base_url
                              ids 1)))]> (files w))
       (stderr w ++ warnings_from' (files w) dir ids)).
Proof.
  intros Hw. unfold create_multi_image_manifest.
  unfold mbind at 1. unfold M_bind. rewrite build_canvases_run.
  cbn [canvases]. unfold mbind, M_bind. rewrite write_json_run by exact Hw.
  reflexivity.
Qed.

(** C6. [get_image_dimensions] never raises: when the size of the image
    cannot be read it returns (1000, 1000) and prints one warning on stderr;
    otherwise it returns the size read and prints nothing; the files are
    untouched either way. An unreadable image therefore still gets its
    canvas, of size 1000 x 1000, and the loop of the manifest builder
    returns for every list of items. *)
Theorem get_image_dimensions_fallback :
  forall (w : world) (image_path : string),
    (forall e, Image_size (files w) image_path = inl e ->
       get_image_dimensions' image_path w
       = (Ok (1000, 1000),
          World (files w)
            (stderr w ++ ["Warning: Could not read dimensions for "
                            +:+ image_path +:+ ": " +:+ e]))) /\
    (forall size, Image_size (files w) image_path = inr size ->
       get_image_dimensions' image_path w = (Ok size, w)) /\
    (exists size w',
       get_image_dimensions' image_path w = (Ok size, w') /\
       files w' = files w) /\
    (forall manifest_id dir base_url st item_id e,
       find_image_file' (files w) item_id dir = Some image_path ->
       image_path <> "" ->
       Image_size (files w) image_path = inl e ->
       exists w',
         canvas_step' manifest_id dir base_url st item_id w
         = (Ok {| canvases :=
                    canvases st ++
                    [create_canvas item_id (path_name image_path) base_url
                       1000 1000 (canvas_index st) manifest_id];
                  canvas_index := canvas_index st + 1;
                  skipped := skipped st |}, w')) /\
    (forall manifest_id dir base_url ids,
       exists st w',
         build_canvases' manifest_id dir base_url ids w = (Ok st, w') /\
         files w' = files w).
Proof.
  intros w image_path. repeat split.
  - intros e He. rewrite get_image_dimensions_run.
    unfold canvas_dimensions. now rewrite He.
  - intros size He. rewrite get_image_dimensions_run.
    unfold canvas_dimensions. rewrite He. destruct w. cbn.
    now rewrite app_nil_r.
  - eexists _, _. split; [apply get_image_dimensions_run|reflexivity].
  - intros manifest_id dir base_url st item_id e Hfind Hne He.
    destruct image_path as [|a f]; [congruence|].
    eexists. rewrite (canvas_step_located _ _ _ _ _ _ _ _ Hfind).
    unfold canvas_dimensions. rewrite He. reflexivity.
  - intros manifest_id dir base_url ids. eexists _, _.
    split; [apply build_canvases_run|reflexivity].
Qed.

(** C3. The loop of the manifest builder returns for every list of item
    ids. An item that cannot be located adds no canvas, leaves the index as
    it is and raises the skip counter by one. So at the end the skip counter
    is the number of items not located, the number k of canvases is the
    number of items minus the skip counter, the canvas ids carry exactly the
    indices 1, 2, ..., k in order, the canvases are those of the located
    items in their order, and the next free index is k + 1. On a writable
    output path the builder returns the manifest whose items are these
    canvases. *)
Theorem canvas_indices_contiguous :
  forall (w : world) (manifest_id label description : string)
         (ids : list cell) (dir base_url output_path : string)
         (verbose : bool),
    exists st w1,
      build_canvases' manifest_id dir base_url ids w = (Ok st, w1) /\
      files w1 = files w /\
      skipped st
      = Z.of_nat (length (List.filter
                            (fun i => negb (located' (files w) i dir)) ids)) /\
      Z.of_nat (length (canvases st)) = Z.of_nat (length ids) - skipped st /\
      canvas_index st = 1 + Z.of_nat (length (canvases st)) /\
      map canvas_id (canvases st)
      = map (fun i : nat =>
               Some (JStr (base_url +:+ "/collections/" +:+ manifest_id
                             +:+ "/canvas/" +:+ pretty (Z.of_nat i))))
            (seq 1 (length (canvases st))) /\
      map canvas_label (canvases st)
      = map (fun i => Some (json_of_cell i))
            (List.filter (fun i => located' (files w) i dir) ids) /\
      (forall st0 item_id,
         located' (files w) item_id dir = false ->
         canvas_step' manifest_id dir base_url st0 item_id w
         = (Ok {| canvases := canvases st0;
                  canvas_index := canvas_index st0;
                  skipped := skipped st0 + 1 |}, w)) /\
      (can_write (files w) output_path = true ->
       exists w2,
         create_multi_image_manifest' manifest_id label description ids dir
           base_url output_path verbose w
         = (Ok (manifest_doc manifest_id label description base_url
                  (canvases st)), w2) /\
         jitems (manifest_doc manifest_id label description base_url
                   (canvases st)) = canvases st).
Proof.
  intros w manifest_id label description ids dir base_url output_path verbose.
  eexists _, _. split; [apply build_canvases_run|].
  cbn [files canvases canvas_index skipped].
  pose proof (filter_split_length (fun i => located' (files w) i dir) ids)
    as Hsplit.
  pose proof (canvases_from_length (files w) manifest_id dir base_url ids 1)
    as Hlen.
  repeat split.
  - rewrite Hlen. lia.
  - rewrite Hlen. lia.
  - apply (canvases_from_ids (files w) manifest_id dir base_url ids 1).
  - apply canvases_from_labels.
  - intros st0 item_id Hloc. now apply canvas_step_unlocated.
  - intros Hw. eexists. split; [|reflexivity].
    now apply create_multi_image_manifest_run.
Qed.

Lemma canvases_from_none (fs : gmap string node)
    (manifest_id dir base_url : string) (ids : list cell) (idx : Z) :
  (forall i, In i ids -> find_image_file' fs i dir = None) ->
  canvases_from' fs manifest_id dir base_url ids idx = [] /\
  warnings_from' fs dir ids = [] /\
  List.filter (fun i => located' fs i dir) ids = [] /\
  List.filter (fun i => negb (located' fs i dir)) ids = ids.
Proof.
  intros Hnone.
  assert (Hloc : forall i, In i ids -> located' fs i dir = false).
  { intros i Hi. unfold located. now rewrite (Hnone i Hi). }
  repeat split.
  - induction ids as [|i ids IH]; [reflexivity|].
    cbn [canvases_from]. rewrite (Hnone i) by (now left).
    apply IH; intros j Hj; [apply Hnone|apply Hloc]; now right.
  - induction ids as [|i ids IH]; [reflexivity|].
    cbn [warnings_from]. rewrite (Hnone i) by (now left).
    apply IH; intros j Hj; [apply Hnone|apply Hloc]; now right.
  - now apply filter_none.
  - apply filter_all. intros i Hi. now rewrite (Hloc i Hi).
Qed.

(** C10. When no item of the list resolves to an image file and the output
    path can be written, the manifest builder still returns and writes the
    complete manifest document, with an empty [items] array, to the output
    path; nothing else changes, nothing is printed on stderr, and the loop
    ends with no canvas, index 1 and a skip counter equal to the length of
    the list. *)
Theorem all_skipped_manifest_written :
  forall (w : world) (manifest_id label description : string)
         (ids : list cell) (dir base_url output_path : string)
         (verbose : bool),
    (forall i, In i ids -> find_image_file' (files w) i dir = None) ->
    can_write (files w) output_path = true ->
    let doc :=
      JDict
        [ ("@context", JStr "http://iiif.io/api/presentation/3/context.json");
          ("id", JStr (base_url +:+ "/collections/" +:+ manifest_id +:+ ".json"));
          ("type", JStr "Manifest");
          ("label", JDict [("en", JList [JStr label])]);
          ("summary", JDict [("en", JList [JStr description])]);
          ("items", JList []) ] in
    create_multi_image_manifest' manifest_id label description ids dir
      base_url output_path verbose w
    = (Ok doc,
       World (<[output_path := File (json_dump doc)]> (files w)) (stderr w)) /\
    jitems doc = [] /\
    build_canvases' manifest_id dir base_url ids w
    = (Ok {| canvases := []; canvas_index := 1;
             skipped := Z.of_nat (length ids) |}, w).
Proof.
  intros w manifest_id label description ids dir base_url output_path verbose
         Hnone Hw doc.
  destruct (canvases_from_none (files w) manifest_id dir base_url ids 1 Hnone)
    as (Hc & Hwarn & Hloc & Hskip).
  split; [|split; [reflexivity|]].
  - rewrite create_multi_image_manifest_run by exact Hw.
    rewrite Hc, Hwarn, app_nil_r. reflexivity.
  - rewrite build_canvases_run, Hc, Hwarn, Hloc, Hskip, app_nil_r.
    destruct w. reflexivity.
Qed.

(** *** generate_manifests *)

#[local] Abbreviation image_files' := (image_files path_suffix dir_entry).
#[local] Abbreviation glob_json' := (glob_json path_name dir_entry).
#[local] Abbreviation makedirs' := (makedirs path_ancestors).
#[local] Abbreviation load_csv_data' := (load_csv_data DictReader).
#[local] Abbreviation split_step' :=
  (split_step path_join path_name os_path_join Image_size json_dump can_write).
#[local] Abbreviation saint_step' :=
  (saint_step path_join path_name os_path_join Image_size json_dump can_write).
#[local] Abbreviation sample_stage' :=
  (sample_stage path_join path_name os_path_join Image_size json_dump can_write).
#[local] Abbreviation generate_manifests' :=
  (generate_manifests path_join path_name path_suffix os_path_join
     resolve_path dir_entry path_ancestors Image_size json_dump DictReader
     can_write).

Lemma path_exists_file (fs : gmap string node) (p : string) (n : node) :
  fs !! p = Some n -> path_exists fs p = true.
Proof. intros H. unfold path_exists. apply bool_decide_eq_true_2. eauto. Qed.

Lemma image_files_dir (fs : gmap string node) (d : string) (l : list string) :
  image_files' fs d = Ok l -> path_exists fs d = true.
Proof.
  unfold image_files. destruct (fs !! d) as [[|c]|] eqn:E; try discriminate.
  intros _. now apply (path_exists_file fs d Dir).
Qed.

Lemma mkdir_all_lookup (ps : list string) (fs : gmap string node) (p : string) :
  ~ In p ps -> foldr (fun q fs => <[q := Dir]> fs) fs ps !! p = fs !! p.
Proof.
  induction ps as [|q ps IH]; intros Hp; [reflexivity|].
  cbn [foldr]. rewrite lookup_insert_ne.
  - apply IH. intros H. apply Hp. now right.
  - intros ->. apply Hp. now left.
Qed.

(** [os.makedirs] leaves every regular file as it is. *)
Lemma makedirs_keeps_files (d p : string) (w w1 : world) :
  makedirs' d w = (Ok tt, w1) ->
  is_file (files w) p = true ->
  files w1 !! p = files w !! p /\ stderr w1 = stderr w.
Proof.
  unfold makedirs.
  destruct (List.find (is_file (files w)) (path_ancestors d ++ [d])) eqn:E;
    [discriminate|].
  intros [= <-] Hp. split; [|reflexivity]. cbn [files].
  apply mkdir_all_lookup. intros Hin.
  apply (find_none _ _ E) in Hin. congruence.
Qed.

Lemma makedirs_stderr (d : string) (w w1 : world) :
  makedirs' d w = (Ok tt, w1) -> stderr w1 = stderr w.
Proof.
  unfold makedirs.
  destruct (List.find (is_file (files w)) (path_ancestors d ++ [d]));
    [discriminate|].
  now intros [= <-].
Qed.

Lemma load_csv_data_run (csv_path text : string) (w : world) :
  files w !! csv_path = Some (File text) ->
  load_csv_data' csv_path w = (load_rows (DictReader text) empty_catalog, w).
Proof.
  intros H. unfold load_csv_data, mbind, M_bind, get_files. cbv beta iota.
  now rewrite H.
Qed.

(** The sample block when it builds. *)
Lemma sample_stage_run (items : list cell) (dir out base_url : string) (n : Z)
    (verbose force : bool) (w : world) :
  0 < n ->
  path_exists (files w) (os_path_join out "sample.json") && negb force = false ->
  can_write (files w) (os_path_join out "sample.json") = true ->
  sample_stage' items dir out base_url (Some n) verbose force w
  = (Ok tt,
     World
       (<[os_path_join out "sample.json" :=
            File (json_dump
                    (manifest_doc "sample"
                       ("Sample Collection (" +:+ pretty n +:+ " images)")
                       ("Sample collection of " +:+ pretty n
                          +:+ " images from the ArtDL dataset")
                       base_url
                       (canvases_from' (files w) "sample" dir base_url
                          (take (Z.to_nat n) items) 1)))]> (files w))
       (stderr w ++ warnings_from' (files w) dir (take (Z.to_nat n) items))).
Proof.
  intros Hn Hgate Hw. unfold sample_stage.
  replace (0 <? n) with true by (symmetry; now apply Z.ltb_lt).
  unfold mbind at 1. unfold M_bind, get_files. cbv beta iota.
  rewrite Hgate. unfold mbind, M_bind.
  rewrite create_multi_image_manifest_run by exact Hw. reflexivity.
Qed.


(** A run that passes the checks and has only the sample to build. *)
Lemma generate_manifests_sample_run (o : options) (w w1 : world)
    (text f : string) (l : list string) (n : Z) :
  generate_all o = false -> generate_splits o = false ->
  generate_saints o = false ->
  files w !! resolve_path (csv_file o) = Some (File text) ->
  image_files' (files w) (resolve_path (images_dir o)) = Ok (f :: l) ->
  path_exists (files w) (resolve_path (output_dir o)) && negb (force o)
    && negb (bool_decide (glob_json' (files w) (resolve_path (output_dir o))
                          = [])) = false ->
  makedirs' (resolve_path (output_dir o)) w = (Ok tt, w1) ->
  Forall row_ok (DictReader text) ->
  sample_size o = Some n -> 0 < n ->
  path_exists (files w1)
    (os_path_join (resolve_path (output_dir o)) "sample.json")
    && negb (force o) = false ->
  can_write (files w1)
    (os_path_join (resolve_path (output_dir o)) "sample.json") = true ->
  generate_manifests' o w
  = sample_stage' (map (field "item") (DictReader text))
      (resolve_path (images_dir o)) (resolve_path (output_dir o)) (base_url o)
      (Some n) (verbose o) (force o) w1.
Proof.
  intros Hall Hsplits Hsaints Hcsv Himgs Hgate Hmk Hrows Hsize Hn Hsample Hw.
  unfold generate_manifests.
  unfold mbind at 1. unfold M_bind, get_files. cbv beta iota zeta.
  rewrite (path_exists_file _ _ _ Hcsv), (image_files_dir _ _ _ Himgs).
  cbn [negb]. unfold mbind at 1. unfold M_bind, lift. rewrite Himgs, Hgate.
  unfold mbind at 1. unfold M_bind. rewrite Hmk.
  unfold mbind at 1. unfold M_bind.
  assert (Hcsv1 : files w1 !! resolve_path (csv_file o) = Some (File text)).
  { destruct (makedirs_keeps_files _ (resolve_path (csv_file o)) _ _ Hmk)
      as [E _].
    - unfold is_file. now rewrite Hcsv.
    - now rewrite E. }
  rewrite (load_csv_data_run _ _ _ Hcsv1), (load_rows_views _ Hrows).
  rewrite Hall, Hsplits, Hsaints, Hsize. cbn [orb all_items].
  reflexivity.
Qed.





End PlatformFacts.

(** ** The statements on a concrete disk *)




(** Two items without any image on the sample disk: the document is written
    with an empty [items] array and both items are counted as skipped. *)
Lemma all_skipped_manifest_written_witness :
  let doc :=
    JDict
      [ ("@context", JStr "http://iiif.io/api/presentation/3/context.json");
        ("id", JStr "http://localhost:8182/collections/lost.json");
        ("type", JStr "Manifest");
        ("label", JDict [("en", JList [JStr "Lost"])]);
        ("summary", JDict [("en", JList [JStr "Items without images"])]);
        ("items", JList []) ] in
  Posix.create_multi_image_manifest "lost" "Lost" "Items without images"
    [Some "x"; Some "y"] "/data/images" "http://localhost:8182"
    "/out/lost.json" false (World Posix.disk [])
  = (Ok doc,
     World (<["/out/lost.json" := File (Posix.json_dump doc)]> Posix.disk) [])
  /\
  jitems doc = [] /\
  Posix.build_canvases "lost" "/data/images" "http://localhost:8182"
    [Some "x"; Some "y"] (World Posix.disk [])
  = (Ok {| canvases := []; canvas_index := 1; skipped := 2 |},
     World Posix.disk []).
Proof.
  apply (all_skipped_manifest_written Posix.path_join Posix.path_name
           Posix.Image_size Posix.json_dump Posix.can_write
           (World Posix.disk []) "lost" "Lost" "Items without images"
           [Some "x"; Some "y"] "/data/images" "http://localhost:8182"
           "/out/lost.json" false).
  - intros i [<-|[<-|[]]]; vm_compute; reflexivity.
  - vm_compute; reflexivity.
Defined.

(** The sample catalog: four rows, one with an unknown split. *)
Lemma load_rows_full_list_witness :
  exists c,
    load_rows (Posix.DictReader Posix.artdl_csv) empty_catalog = Ok c /\
    all_items c = [Some "a"; Some "b"; Some "c"; Some "d"] /\
    length (all_items c) = 4%nat /\
    set_data c
    = [("train", [Some "a"]); ("test", [Some "b"]); ("val", [Some "c"])].
Proof.
  destruct (load_rows_full_list (Posix.DictReader Posix.artdl_csv))
    as (c & Hrun & Hitems & Hlen & _).
  - apply (bool_decide_unpack _). vm_compute. exact I.
  - exists c. split; [exact Hrun|]. split; [rewrite Hitems; vm_compute; reflexivity|].
    split; [rewrite Hlen; vm_compute; reflexivity|].
    vm_compute in Hrun. injection Hrun as <-. vm_compute. reflexivity.
Defined.

(** The sample catalog: item c is in one split bucket and two category
    buckets. *)
Lemma split_buckets_by_set_field_witness :
  exists c,
    load_rows (Posix.DictReader Posix.artdl_csv) empty_catalog = Ok c /\
    set_data c
    = [("train", [Some "a"]); ("test", [Some "b"]); ("val", [Some "c"])] /\
    assoc "11H(JEROME)" (saint_data c) = Some [Some "a"; Some "c"] /\
    assoc "11H(PAUL)" (saint_data c) = Some [Some "b"; Some "c"] /\
    ~ In (Some "c") [Some "a"].
Proof.
  destruct (split_buckets_by_set_field (Posix.DictReader Posix.artdl_csv))
    as (c & Hrun & Hsets & Hsaints & _ & Hdisjoint).
  - apply (bool_decide_unpack _). vm_compute. exact I.
  - exists c. split; [exact Hrun|].
    split; [rewrite Hsets; vm_compute; reflexivity|].
    split; [rewrite Hsaints; vm_compute; reflexivity|].
    split; [rewrite Hsaints; vm_compute; reflexivity|].
    assert (Hnd : NoDup (map (field "item")
                           (Posix.DictReader Posix.artdl_csv))).
    { apply (bool_decide_unpack _). vm_compute. exact I. }
    apply (Hdisjoint Hnd "val" "train" [Some "c"] [Some "a"]).
    + discriminate.
    + rewrite Hsets. vm_compute. reflexivity.
    + rewrite Hsets. vm_compute. reflexivity.
    + now left.
Defined.

(** Five requested items, two of them without an image: three canvases with
    the indices 1, 2, 3 and a skip counter of 2. *)
Lemma canvas_indices_contiguous_witness :
  exists st w1,
    Posix.build_canvases "train" "/data/images" "http://h"
      [Some "a"; Some "x"; Some "b"; Some "y"; Some "c"] (World Posix.disk [])
    = (Ok st, w1) /\
    skipped st = 2 /\
    length (canvases st) = 3%nat /\
    map canvas_id (canvases st)
    = [ Some (JStr "http://h/collections/train/canvas/1");
        Some (JStr "http://h/collections/train/canvas/2");
        Some (JStr "http://h/collections/train/canvas/3") ] /\
    map canvas_label (canvases st)
    = [Some (JStr "a"); Some (JStr "b"); Some (JStr "c")].
Proof.
  destruct (canvas_indices_contiguous Posix.path_join Posix.path_name
              Posix.Image_size Posix.json_dump Posix.can_write
              (World Posix.disk []) "train" "Train Set" "Training set"
              [Some "a"; Some "x"; Some "b"; Some "y"; Some "c"]
              "/data/images" "http://h" "/out/train.json" false)
    as (st & w1 & Hrun & _ & Hskip & Hcount & _ & Hids & Hlabels & _).
  assert (Hskip' : skipped st = 2) by (rewrite Hskip; vm_compute; reflexivity).
  assert (Hlen : length (canvases st) = 3%nat).
  { rewrite Hskip' in Hcount. cbn [length] in Hcount. lia. }
  exists st, w1. split; [exact Hrun|]. split; [exact Hskip'|].
  split; [exact Hlen|]. split.
  - rewrite Hids, Hlen. vm_compute. reflexivity.
  - rewrite Hlabels. vm_compute. reflexivity.
Defined.

(** An empty image file: the fallback size and one warning. *)
Lemma get_image_dimensions_fallback_witness :
  Posix.get_image_dimensions "/data/images/c.TIF" (World Posix.disk [])
  = (Ok (1000, 1000),
     World Posix.disk
       ["Warning: Could not read dimensions for /data/images/c.TIF: cannot identify image file"]).
Proof.
  destruct (get_image_dimensions_fallback Posix.path_join Posix.path_name
              Posix.Image_size (World Posix.disk []) "/data/images/c.TIF")
    as (Hfail & _).
  apply (Hfail "cannot identify image file"). vm_compute. reflexivity.
Defined.

(** Three files with the stem s: the .png one precedes .tiff and .JPG. *)
Lemma find_image_file_first_match_witness :
  let fs : gmap string node :=
    <["/data/images/s.JPG" := File "JFIF"]>
      (<["/data/images/s.tiff" := File "II"]>
         (<["/data/images/s.png" := File "PNG"]> Posix.disk)) in
  Posix.find_image_file fs (Some "s") "/data/images"
  = Some "/data/images/s.png".
Proof.
  intros fs.
  destruct (find_image_file_first_match Posix.path_join fs (Some "s")
              "/data/images") as (_ & Hfirst & _).
  apply Hfirst. exists [".jpg"; ".jpeg"], ".png",
    [".tif"; ".tiff"; ".JPG"; ".JPEG"; ".PNG"; ".TIF"; ".TIFF"].
  split; [reflexivity|]. split; [reflexivity|].
  split; [vm_compute; reflexivity|].
  repeat constructor; vm_compute; reflexivity.
Defined.

(** * Further properties *)

(** ** The catalog loader *)

Lemma load_row_Ok_inv (c c' : catalog) (r : row) :
  load_row c r = Ok c' -> row_ok r.
Proof.
  unfold load_row, getitem, row_ok.
  destruct (r !! "item") as [i|]; [|discriminate].
  destruct (r !! "set") as [s|]; [|discriminate].
  intros _. split; eauto.
Qed.

Lemma load_rows_Ok_inv (rows : list row) (c c' : catalog) :
  load_rows rows c = Ok c' -> Forall row_ok rows.
Proof.
  revert c. induction rows as [|r rows IH]; intros c H; [constructor|].
  cbn [load_rows] in H. destruct (load_row c r) as [c1|e] eqn:E;
    [|discriminate].
  constructor; [now apply (load_row_Ok_inv c c1)|now apply (IH c1)].
Qed.

Lemma load_row_bad (c : catalog) (r : row) :
  ~ row_ok r -> load_row c r = Raise (KeyError (missing_key r)).
Proof.
  unfold row_ok, missing_key. intros Hbad.
  destruct (r !! "item") as [i|] eqn:Hi.
  - destruct (r !! "set") as [s|] eqn:Hs.
    + exfalso. apply Hbad. split; eauto.
    + apply load_row_no_set; [rewrite Hi; eauto|exact Hs].
  - now apply load_row_no_item.
Qed.

(** X1. The loader returns exactly when every row has both the [item] and
    the [set] field. Otherwise it raises the [KeyError] of the first row
    that lacks one of them, with key [item] if that row has no [item] field
    and [set] otherwise, whatever the later rows are. *)
Theorem load_rows_key_errors (rows : list row) :
  (Forall row_ok rows <-> exists c, load_rows rows empty_catalog = Ok c) /\
  (forall good r rest,
     rows = good ++ r :: rest -> Forall row_ok good -> ~ row_ok r ->
     load_rows rows empty_catalog = Raise (KeyError (missing_key r))).
Proof.
  split.
  - split.
    + intros Hok. eexists. apply (load_rows_views rows Hok).
    + intros [c Hc]. now apply (load_rows_Ok_inv rows empty_catalog c).
  - intros good r rest -> Hgood Hbad. generalize empty_catalog.
    induction Hgood as [|r0 good Hr0 _ IH]; intros c.
    + cbn [app load_rows]. now rewrite (load_row_bad c r Hbad).
    + cbn [app load_rows]. rewrite (load_row_ok c r0 Hr0). apply IH.
Qed.

Lemma items_where_sublist (f : row -> bool) (rows : list row) :
  sublist (items_where f rows) (map (field "item") rows).
Proof.
  unfold items_where. induction rows as [|r rows IH]; [constructor|].
  simpl. destruct (f r); simpl; now constructor.
Qed.

Lemma assoc_keyed_map {A} (g : string -> A) (keys : list string) (k : string)
    (v : A) :
  assoc k (map (fun s => (s, g s)) keys) = Some v -> v = g k /\ In k keys.
Proof.
  induction keys as [|s keys IH]; [discriminate|].
  cbn [map assoc]. destruct (String.eqb_spec k s) as [->|Hne].
  - intros [= <-]. split; [reflexivity|now left].
  - intros H. destruct (IH H) as [-> Hin]. split; [reflexivity|now right].
Qed.

Lemma assoc_keyed_map_in {A} (g : string -> A) (keys : list string)
    (k : string) :
  In k keys -> assoc k (map (fun s => (s, g s)) keys) = Some (g k).
Proof.
  induction keys as [|s keys IH]; [intros []|].
  cbn [map assoc]. destruct (String.eqb_spec k s) as [->|Hne]; [reflexivity|].
  intros [->|Hin]; [congruence|now apply IH].
Qed.

Lemma known_split_count (rows : list row) :
  (length (items_where (in_split "train") rows)
   + length (items_where (in_split "test") rows)
   + length (items_where (in_split "val") rows)
   = length (List.filter known_split rows))%nat.
Proof.
  unfold items_where. rewrite !length_map.
  induction rows as [|r rows IH]; [reflexivity|].
  cbn [List.filter]. unfold known_split at 1.
  destruct (in_split "train" r) eqn:E1, (in_split "test" r) eqn:E2,
    (in_split "val" r) eqn:E3;
    try (apply in_split_field in E1); try (apply in_split_field in E2);
    try (apply in_split_field in E3); try congruence;
    cbn [orb length]; lia.
Qed.

(** X2. In a loaded catalog every split bucket and every category bucket is
    a subsequence of the full item list (same relative order, nothing that
    is not in the full list), and the three split buckets together hold one
    entry per row whose [set] value is train, test or val, hence no more
    entries than there are rows. *)
Theorem buckets_are_subsequences (rows : list row) (c : catalog) :
  load_rows rows empty_catalog = Ok c ->
  (forall k l, assoc k (set_data c) = Some l -> sublist l (all_items c)) /\
  (forall k l, assoc k (saint_data c) = Some l -> sublist l (all_items c)) /\
  (exists train test val,
     set_data c = [("train", train); ("test", test); ("val", val)] /\
     (length train + length test + length val
      = length (List.filter known_split rows))%nat /\
     (length train + length test + length val <= length (all_items c))%nat).
Proof.
  intros Hrun.
  pose proof (load_rows_Ok_inv _ _ _ Hrun) as Hok.
  rewrite (load_rows_views rows Hok) in Hrun. injection Hrun as <-.
  cbn [set_data saint_data all_items]. split; [|split].
  - intros k l H. apply assoc_split_views in H as ->.
    apply items_where_sublist.
  - intros k l H.
    apply (assoc_keyed_map
             (fun saint => items_where (fun r => flag_set r saint) rows)
             SAINT_CATEGORIES k l) in H as [-> _].
    apply items_where_sublist.
  - eexists _, _, _. split; [reflexivity|].
    rewrite known_split_count, length_map. split; [reflexivity|].
    apply List.filter_length_le.
Qed.

Lemma flag_set_spec (r : row) (k : string) :
  flag_set r k = true <-> r !! k = Some (Some "1").
Proof.
  unfold flag_set. rewrite bool_decide_eq_true.
  destruct (r !! k) as [v|]; cbn.
  - split; [now intros ->|now intros [= ->]].
  - split; discriminate.
Qed.

(** X3. Every category of the fixed table has a bucket in a loaded catalog,
    and an item id is in the bucket of a category exactly when some row with
    that item id holds the text "1" in the category's column. A row whose
    column is missing, or holds anything else ("0", "", "true", the [None]
    of a short row), is not in the bucket and raises nothing. *)
Theorem category_bucket_membership (rows : list row) (c : catalog)
    (saint : string) :
  load_rows rows empty_catalog = Ok c ->
  In saint SAINT_CATEGORIES ->
  exists l,
    assoc saint (saint_data c) = Some l /\
    forall x,
      In x l <->
      exists r, In r rows /\ r !! saint = Some (Some "1") /\
                field "item" r = x.
Proof.
  intros Hrun Hsaint.
  pose proof (load_rows_Ok_inv _ _ _ Hrun) as Hok.
  rewrite (load_rows_views rows Hok) in Hrun. injection Hrun as <-.
  exists (items_where (fun r => flag_set r saint) rows). split.
  - apply (assoc_keyed_map_in
             (fun saint => items_where (fun r => flag_set r saint) rows)
             SAINT_CATEGORIES saint Hsaint).
  - intros x. unfold items_where. rewrite in_map_iff. split.
    + intros (r & Hx & Hr). apply List.filter_In in Hr as [Hr Hf].
      apply flag_set_spec in Hf. eauto.
    + intros (r & Hr & Hf & Hx). exists r. split; [exact Hx|].
      apply List.filter_In. split; [exact Hr|]. now apply flag_set_spec.
Qed.

Lemma load_rows_app (rows rows' : list row) (c : catalog) :
  load_rows (rows ++ rows') c
  = match load_rows rows c with
    | Ok c' => load_rows rows' c'
    | Raise e => Raise e
    end.
Proof.
  revert c. induction rows as [|r rows IH]; intros c; [reflexivity|].
  cbn [app load_rows]. destruct (load_row c r); [apply IH|reflexivity].
Qed.

(** X4. Loading is compatible with concatenation: loading the rows of one
    catalog followed by those of another is loading the second from the
    state the first one left, an error in the first part stops the whole
    load, and when both parts load on their own, the full list and every
    split and category bucket of the whole are the first part's followed by
    the second part's. *)
Theorem load_rows_concatenation (rows1 rows2 : list row) :
  (forall c,
     load_rows (rows1 ++ rows2) c
     = match load_rows rows1 c with
       | Ok c' => load_rows rows2 c'
       | Raise e => Raise e
       end) /\
  (forall c1 c2,
     load_rows rows1 empty_catalog = Ok c1 ->
     load_rows rows2 empty_catalog = Ok c2 ->
     exists c,
       load_rows (rows1 ++ rows2) empty_catalog = Ok c /\
       all_items c = all_items c1 ++ all_items c2 /\
       (forall k l1 l2,
          assoc k (set_data c1) = Some l1 -> assoc k (set_data c2) = Some l2 ->
          assoc k (set_data c) = Some (l1 ++ l2)) /\
       (forall k l1 l2,
          assoc k (saint_data c1) = Some l1 ->
          assoc k (saint_data c2) = Some l2 ->
          assoc k (saint_data c) = Some (l1 ++ l2))).
Proof.
  split; [intros c; apply load_rows_app|].
  intros c1 c2 H1 H2.
  pose proof (load_rows_Ok_inv _ _ _ H1) as Hok1.
  pose proof (load_rows_Ok_inv _ _ _ H2) as Hok2.
  assert (Hok : Forall row_ok (rows1 ++ rows2)) by (apply Forall_app; auto).
  rewrite (load_rows_views _ Hok1) in H1. injection H1 as <-.
  rewrite (load_rows_views _ Hok2) in H2. injection H2 as <-.
  eexists. split; [apply (load_rows_views _ Hok)|].
  cbn [all_items set_data saint_data]. split; [apply map_app|]. split.
  - intros k l1 l2 E1 E2.
    cbn [assoc] in *.
    destruct (String.eqb_spec k "train") as [->|_].
    { injection E1 as <-. injection E2 as <-. now rewrite items_where_app. }
    destruct (String.eqb_spec k "test") as [->|_].
    { injection E1 as <-. injection E2 as <-. now rewrite items_where_app. }
    destruct (String.eqb_spec k "val") as [->|_].
    { injection E1 as <-. injection E2 as <-. now rewrite items_where_app. }
    discriminate.
  - intros k l1 l2 E1 E2.
    apply (assoc_keyed_map
             (fun saint => items_where (fun r => flag_set r saint) rows1)
             SAINT_CATEGORIES k l1) in E1 as [-> Hin].
    apply (assoc_keyed_map
             (fun saint => items_where (fun r => flag_set r saint) rows2)
             SAINT_CATEGORIES k l2) in E2 as [-> _].
    rewrite <- items_where_app.
    apply (assoc_keyed_map_in
             (fun saint =>
                items_where (fun r => flag_set r saint) (rows1 ++ rows2))
             SAINT_CATEGORIES k Hin).
Qed.

(** ** File names *)

Lemma sanitize_filename_append (a b : string) :
  sanitize_filename (a +:+ b) = sanitize_filename a +:+ sanitize_filename b.
Proof.
  induction a as [|x a IH]; [reflexivity|].
  rewrite append_cons, !sanitize_filename_cons, IH. now rewrite append_assoc.
Qed.

Lemma sanitize_filename_clean (s : string) (c : ascii) :
  In c (chars (sanitize_filename s)) ->
  c <> "("%char /\ c <> ")"%char /\ c <> " "%char.
Proof.
  induction s as [|a s IH]; [intros []|].
  rewrite sanitize_filename_cons, chars_append, in_app_iff.
  intros [H|H]; [now apply sanitize_char_clean in H|now apply IH].
Qed.

Lemma sanitize_filename_fixed (s : string) :
  (forall c, In c (chars s) ->
     c <> "("%char /\ c <> ")"%char /\ c <> " "%char) ->
  sanitize_filename s = s.
Proof.
  induction s as [|a s IH]; intros Hclean; [reflexivity|].
  rewrite sanitize_filename_cons, IH.
  - destruct (Hclean a) as (H1 & H2 & H3); [now left|].
    unfold sanitize_char.
    apply Ascii.eqb_neq in H1, H2, H3. now rewrite H1, H2, H3.
  - intros c Hc. apply Hclean. now right.
Qed.

Lemma length_append (a b : string) :
  String.length (a +:+ b) = (String.length a + String.length b)%nat.
Proof.
  induction a as [|x a IH]; [reflexivity|].
  rewrite append_cons. simpl. now rewrite IH.
Qed.

(** X5. [sanitize_filename] distributes over concatenation, never makes a
    name longer, leaves a name without parentheses and spaces as it is, and
    is idempotent: sanitizing a sanitized name changes nothing. *)
Theorem sanitize_filename_algebra :
  (forall a b,
     sanitize_filename (a +:+ b)
     = sanitize_filename a +:+ sanitize_filename b) /\
  (forall s, (String.length (sanitize_filename s) <= String.length s)%nat) /\
  (forall s,
     (forall c, In c (chars s) ->
        c <> "("%char /\ c <> ")"%char /\ c <> " "%char) ->
     sanitize_filename s = s) /\
  (forall s, sanitize_filename (sanitize_filename s) = sanitize_filename s).
Proof.
  split; [exact sanitize_filename_append|]. split; [|split].
  - induction s as [|a s IH]; [simpl; lia|].
    rewrite sanitize_filename_cons, length_append. simpl.
    assert (String.length (sanitize_char a) <= 1)%nat; [|lia].
    unfold sanitize_char.
    destruct (Ascii.eqb a "("), (Ascii.eqb a ")"), (Ascii.eqb a " ");
      simpl; lia.
  - exact sanitize_filename_fixed.
  - intros s. apply sanitize_filename_fixed. apply sanitize_filename_clean.
Qed.

(** X6. The file names a run can write (train.json, test.json, val.json,
    one sanitized name per category, sample.json) are pairwise different, so
    no manifest of a run is written over another one, although
    [sanitize_filename] maps different labels to one name in general. *)
Theorem target_filenames_distinct :
  NoDup target_filenames /\
  length target_filenames = (3 + length SAINT_CATEGORIES + 1)%nat /\
  (forall a b,
     sanitize_filename (a +:+ "(" +:+ b) = sanitize_filename (a +:+ " " +:+ b)).
Proof.
  split; [apply (bool_decide_unpack _); vm_compute; exact I|].
  split; [reflexivity|].
  intros a b. now rewrite !sanitize_filename_append.
Qed.

(** ** The manifest builder and the driver, continued *)

Lemma NoDup_map_of_inj {A B} (f : A -> B) (l : list A) :
  (forall x y, f x = f y -> x = y) -> NoDup l -> NoDup (map f l).
Proof.
  intros Hinj. induction 1 as [|x l Hx _ IH]; [constructor|].
  cbn [map]. constructor; [|exact IH].
  rewrite list_elem_of_In, in_map_iff. intros (y & E & Hy).
  apply Hinj in E. subst y. now apply list_elem_of_In in Hy.
Qed.

Lemma collections_id_of_nat_inj (base_url manifest_id kind : string)
    (i j : nat) :
  Some (JStr (base_url +:+ "/collections/" +:+ manifest_id +:+ kind
                +:+ pretty (Z.of_nat i)))
  = Some (JStr (base_url +:+ "/collections/" +:+ manifest_id +:+ kind
                  +:+ pretty (Z.of_nat j))) ->
  i = j.
Proof.
  intros [= H]. do 4 apply append_inv_head in H.
  apply (inj pretty) in H. lia.
Qed.

Section PlatformFurther.

Variable path_join : string -> string -> string.
Variable path_name : string -> string.
Variable path_suffix : string -> string.
Variable os_path_join : string -> string -> string.
Variable resolve_path : string -> string.
Variable dir_entry : string -> string -> bool.
Variable path_ancestors : string -> list string.
Variable Image_size : gmap string node -> string -> string + (Z * Z).
Variable json_dump : json -> string.
Variable DictReader : string -> list row.
Variable can_write : gmap string node -> string -> bool.

#[local] Abbreviation candidate dir item ext :=
  (path_join dir (fmt item +:+ ext)).
#[local] Abbreviation find_image_file' := (find_image_file path_join).
#[local] Abbreviation located' := (located path_join).
#[local] Abbreviation build_canvases' :=
  (build_canvases path_join path_name Image_size).
#[local] Abbreviation canvases_from' :=
  (canvases_from path_join path_name Image_size).
#[local] Abbreviation warnings_from' := (warnings_from path_join Image_size).
#[local] Abbreviation canvas_dimensions' := (canvas_dimensions Image_size).
#[local] Abbreviation write_json' := (write_json json_dump can_write).
#[local] Abbreviation create_multi_image_manifest' :=
  (create_multi_image_manifest path_join path_name Image_size json_dump
     can_write).
#[local] Abbreviation image_files' := (image_files path_suffix dir_entry).
#[local] Abbreviation glob_json' := (glob_json path_name dir_entry).
#[local] Abbreviation makedirs' := (makedirs path_ancestors).
#[local] Abbreviation load_csv_data' := (load_csv_data DictReader).
#[local] Abbreviation split_step' :=
  (split_step path_join path_name os_path_join Image_size json_dump can_write).
#[local] Abbreviation saint_step' :=
  (saint_step path_join path_name os_path_join Image_size json_dump can_write).
#[local] Abbreviation sample_stage' :=
  (sample_stage path_join path_name os_path_join Image_size json_dump can_write).
#[local] Abbreviation generate_manifests' :=
  (generate_manifests path_join path_name path_suffix os_path_join
     resolve_path dir_entry path_ancestors Image_size json_dump DictReader
     can_write).

(** *** Identifiers within one manifest *)

Lemma canvases_from_identifiers (sel : json -> option json) (kind : string)
    (fs : gmap string node) (manifest_id dir base_url : string)
    (ids : list cell) (start : nat) :
  (forall item_id image_filename width height i,
     sel (create_canvas item_id image_filename base_url width height i
            manifest_id)
     = Some (JStr (base_url +:+ "/collections/" +:+ manifest_id +:+ kind
                     +:+ pretty i))) ->
  map sel (canvases_from' fs manifest_id dir base_url ids (Z.of_nat start))
  = map (fun i : nat =>
           Some (JStr (base_url +:+ "/collections/" +:+ manifest_id +:+ kind
                         +:+ pretty (Z.of_nat i))))
        (seq start
           (length (canvases_from' fs manifest_id dir base_url ids
                      (Z.of_nat start)))).
Proof.
  intros Hsel. revert start.
  induction ids as [|item_id ids IH]; intros start; [reflexivity|].
  cbn [canvases_from].
  destruct (find_image_file' fs item_id dir) as [[|a f]|]; try apply IH.
  replace (Z.of_nat start + 1) with (Z.of_nat (S start)) by lia.
  cbn [length seq map]. now rewrite IH, Hsel.
Qed.

Lemma canvases_from_identifiers_NoDup (sel : json -> option json)
    (kind : string) (fs : gmap string node) (manifest_id dir base_url : string)
    (ids : list cell) :
  (forall item_id image_filename width height i,
     sel (create_canvas item_id image_filename base_url width height i
            manifest_id)
     = Some (JStr (base_url +:+ "/collections/" +:+ manifest_id +:+ kind
                     +:+ pretty i))) ->
  NoDup (map sel (canvases_from' fs manifest_id dir base_url ids 1)).
Proof.
  intros Hsel.
  pose proof (canvases_from_identifiers sel kind fs manifest_id dir base_url
                ids 1 Hsel) as E.
  change (Z.of_nat 1) with 1 in E. rewrite E.
  apply NoDup_map_of_inj; [|apply NoDup_seq].
  intros i j. apply collections_id_of_nat_inj.
Qed.

Lemma canvases_from_targets (fs : gmap string node)
    (manifest_id dir base_url : string) (ids : list cell) (idx : Z) :
  Forall (fun c =>
            is_Some (canvas_id c) /\
            jpath [Key "items"; Idx 0; Key "items"; Idx 0; Key "target"] c
            = canvas_id c)
         (canvases_from' fs manifest_id dir base_url ids idx).
Proof.
  revert idx. induction ids as [|item_id ids IH]; intros idx; [constructor|].
  cbn [canvases_from].
  destruct (find_image_file' fs item_id dir) as [[|a f]|]; try apply IH.
  constructor; [|apply IH]. split; [|reflexivity]. cbn. eauto.
Qed.

(** X7. In the canvases one run of the manifest builder's loop produces, no
    two canvases have the same Canvas id, no two the same AnnotationPage id
    and no two the same Annotation id, and every annotation's [target] is
    the id of the canvas that contains it. *)
Theorem manifest_identifiers_distinct :
  forall (w : world) (manifest_id dir base_url : string) (ids : list cell),
    exists st w',
      build_canvases' manifest_id dir base_url ids w = (Ok st, w') /\
      NoDup (map canvas_id (canvases st)) /\
      NoDup (map page_id (canvases st)) /\
      NoDup (map annotation_id (canvases st)) /\
      Forall (fun c =>
                is_Some (canvas_id c) /\
                jpath [Key "items"; Idx 0; Key "items"; Idx 0; Key "target"] c
                = canvas_id c)
             (canvases st).
Proof.
  intros w manifest_id dir base_url ids.
  eexists _, _. split; [apply build_canvases_run|]. cbn [canvases].
  split; [|split; [|split]].
  - apply (canvases_from_identifiers_NoDup canvas_id "/canvas/"). reflexivity.
  - apply (canvases_from_identifiers_NoDup page_id "/page/"). reflexivity.
  - apply (canvases_from_identifiers_NoDup annotation_id "/annotation/").
    reflexivity.
  - apply canvases_from_targets.
Qed.

(** *** What the manifest builder touches *)

Lemma create_multi_image_manifest_unwritable
    (manifest_id label description : string) (ids : list cell)
    (dir base_url output_path : string) (verbose : bool) (w : world) :
  can_write (files w) output_path = false ->
  create_multi_image_manifest' manifest_id label description ids dir base_url
    output_path verbose w
  = (Raise (OSError output_path),
     World (files w) (stderr w ++ warnings_from' (files w) dir ids)).
Proof.
  intros Hw. unfold create_multi_image_manifest.
  unfold mbind at 1. unfold M_bind. rewrite build_canvases_run.
  unfold mbind, M_bind, write_json. cbn [files]. now rewrite Hw.
Qed.

(** X8. The manifest builder changes no path other than its output path,
    whether it returns or raises. When the output path cannot be written it
    raises after the whole item list has been processed (the warnings for
    unreadable images are already printed) and no file is changed at all;
    when it can, the output path holds the serialized document that the
    builder returns. *)
Theorem create_multi_image_manifest_footprint :
  forall (manifest_id label description : string) (ids : list cell)
         (dir base_url output_path : string) (verbose : bool) (w : world),
    let run :=
      create_multi_image_manifest' manifest_id label description ids dir
        base_url output_path verbose w in
    (forall p, p <> output_path -> files (snd run) !! p = files w !! p) /\
    (can_write (files w) output_path = false ->
     run = (Raise (OSError output_path),
            World (files w) (stderr w ++ warnings_from' (files w) dir ids))) /\
    (can_write (files w) output_path = true ->
     exists doc,
       fst run = Ok doc /\
       files (snd run) !! output_path = Some (File (json_dump doc)) /\
       stderr (snd run) = stderr w ++ warnings_from' (files w) dir ids).
Proof.
  intros manifest_id label description ids dir base_url output_path verbose w
         run.
  destruct (can_write (files w) output_path) eqn:Hw.
  - assert (E := create_multi_image_manifest_run path_join path_name Image_size
                   json_dump can_write manifest_id label description ids dir
                   base_url output_path verbose w Hw).
    fold run in E. rewrite E. cbn [fst snd files stderr].
    split; [|split; [discriminate|]].
    + intros p Hp. apply lookup_insert_ne. congruence.
    + intros _. eexists. split; [reflexivity|].
      split; [apply lookup_insert_eq|reflexivity].
  - assert (E := create_multi_image_manifest_unwritable manifest_id label
                   description ids dir base_url output_path verbose w Hw).
    fold run in E. rewrite E. cbn [fst snd files stderr].
    split; [reflexivity|]. split; [reflexivity|discriminate].
Qed.

Lemma find_image_file_candidate (fs : gmap string node) (i : cell)
    (dir f : string) :
  find_image_file' fs i dir = Some f ->
  exists ext, In ext extensions /\ f = candidate dir i ext.
Proof.
  intros H. pose proof (probe_spec path_join fs i dir extensions) as Hspec.
  unfold find_image_file in H. rewrite H in Hspec.
  destruct Hspec as (pre & ext & post & E & -> & _).
  exists ext. split; [|reflexivity]. rewrite E. apply in_or_app. right.
  now left.
Qed.

Lemma canvases_from_agree (fs fs' : gmap string node)
    (manifest_id dir base_url : string) (ids : list cell) (idx : Z) :
  (forall i ext, In i ids -> In ext extensions ->
     path_exists fs' (candidate dir i ext)
     = path_exists fs (candidate dir i ext)) ->
  (forall i ext, In i ids -> In ext extensions ->
     Image_size fs' (candidate dir i ext)
     = Image_size fs (candidate dir i ext)) ->
  canvases_from' fs' manifest_id dir base_url ids idx
  = canvases_from' fs manifest_id dir base_url ids idx /\
  warnings_from' fs' dir ids = warnings_from' fs dir ids.
Proof.
  revert idx. induction ids as [|i ids IH]; intros idx Hex Hsize;
    [split; reflexivity|].
  cbn [canvases_from warnings_from].
  assert (Hfind : find_image_file' fs' i dir = find_image_file' fs i dir).
  { apply probe_agree. intros e He. apply Hex; [now left|exact He]. }
  assert (Hrest : forall idx',
            canvases_from' fs' manifest_id dir base_url ids idx'
            = canvases_from' fs manifest_id dir base_url ids idx' /\
            warnings_from' fs' dir ids = warnings_from' fs dir ids).
  { intros idx'. apply IH; intros j ext Hj Hext;
      [apply Hex|apply Hsize]; auto; now right. }
  rewrite Hfind.
  destruct (find_image_file' fs i dir) as [[|a f]|] eqn:E;
    try (destruct (Hrest idx) as [-> ->]; split; reflexivity).
  destruct (find_image_file_candidate _ _ _ _ E) as (ext & Hext & Hf).
  unfold canvas_dimensions. rewrite Hf, (Hsize i ext) by (auto; now left).
  destruct (Hrest (idx + 1)) as [-> ->]. split; reflexivity.
Qed.

(** X9. Building a manifest twice in a row gives the same document and the
    same file: when the output path is none of the probed image paths of the
    requested items, stays writable once written, and reading an image's
    size does not depend on other paths, the second run returns the document
    of the first and leaves every file as the first run left it. *)
Theorem create_multi_image_manifest_twice :
  forall (manifest_id label description : string) (ids : list cell)
         (dir base_url output_path : string) (verbose : bool) (w : world),
    (forall fs p q n, p <> q -> Image_size (<[q := n]> fs) p = Image_size fs p) ->
    (forall i ext, In i ids -> In ext extensions ->
       candidate dir i ext <> output_path) ->
    can_write (files w) output_path = true ->
    (forall text,
       can_write (<[output_path := File text]> (files w)) output_path = true) ->
    exists doc w1 w2,
      create_multi_image_manifest' manifest_id label description ids dir
        base_url output_path verbose w = (Ok doc, w1) /\
      create_multi_image_manifest' manifest_id label description ids dir
        base_url output_path verbose w1 = (Ok doc, w2) /\
      files w2 = files w1.
Proof.
  intros manifest_id label description ids dir base_url output_path verbose w
         Hlocal Hout Hw Hw'.
  eexists _, _, _. split; [now apply create_multi_image_manifest_run|].
  rewrite create_multi_image_manifest_run by (cbn [files]; apply Hw').
  cbn [files stderr].
  destruct (canvases_from_agree (files w)
              (<[output_path :=
                   File (json_dump
                           (manifest_doc manifest_id label description base_url
                              (canvases_from' (files w) manifest_id dir
                                 base_url ids 1)))]> (files w))
              manifest_id dir base_url ids 1) as [Hc _].
  - intros i ext Hi Hext. unfold path_exists.
    rewrite lookup_insert_ne; [reflexivity|].
    intros E. now apply (Hout i ext Hi Hext).
  - intros i ext Hi Hext. apply Hlocal. now apply Hout.
  - rewrite Hc. split; [reflexivity|]. cbn [files]. apply insert_insert_eq.
Qed.

(** *** The driver's checks *)

(** X10. The three reported check failures of the driver: when the catalog
    file is missing, when the images directory is missing, and when the
    images directory holds no image file, the driver prints exactly one
    error line on stderr, changes no file and returns normally (no
    exception, nothing created). When the images path is a regular file the
    driver does not report it: the directory listing raises
    [NotADirectoryError], with nothing printed or changed. *)
Theorem generate_manifests_failed_checks :
  forall (o : options) (w : world),
    let csv := resolve_path (csv_file o) in
    let imgs := resolve_path (images_dir o) in
    (path_exists (files w) csv = false ->
     generate_manifests' o w
     = (Ok tt,
        World (files w)
          (stderr w ++ ["✗ Error: CSV file not found: " +:+ csv]))) /\
    (path_exists (files w) csv = true -> path_exists (files w) imgs = false ->
     generate_manifests' o w
     = (Ok tt,
        World (files w)
          (stderr w ++ ["✗ Error: Images directory not found: " +:+ imgs]))) /\
    (path_exists (files w) csv = true -> image_files' (files w) imgs = Ok [] ->
     generate_manifests' o w
     = (Ok tt,
        World (files w)
          (stderr w ++ ["✗ Error: No image files found in " +:+ imgs]))) /\
    (path_exists (files w) csv = true -> is_file (files w) imgs = true ->
     generate_manifests' o w = (Raise (NotADirectoryError imgs), w)).
Proof.
  intros o w csv imgs. subst csv imgs.
  split; [|split; [|split]]; unfold generate_manifests;
    unfold mbind at 1; unfold M_bind, get_files; cbv beta iota zeta.
  - intros Hcsv. rewrite Hcsv. reflexivity.
  - intros Hcsv Himgs. rewrite Hcsv, Himgs. reflexivity.
  - intros Hcsv Himgs. rewrite Hcsv.
    rewrite (image_files_dir path_suffix dir_entry _ _ _ Himgs). cbn [negb].
    unfold mbind at 1. unfold M_bind, lift. rewrite Himgs. reflexivity.
  - intros Hcsv Himgs. rewrite Hcsv. unfold is_file in Himgs.
    destruct (files w !! resolve_path (images_dir o)) as [[|c]|] eqn:E;
      try discriminate.
    rewrite (path_exists_file _ _ _ E). cbn [negb].
    unfold mbind at 1. unfold M_bind, lift, image_files. rewrite E.
    reflexivity.
Qed.

(** *** What a run of the driver can change *)

Section Invariant.

(** A relation between the world before and after that every step of the
    driver keeps: it holds when the files are the same, it is transitive,
    and it holds across a write to a [*.json] name under the output
    directory [out] and across the creation of [out]. *)
Variable R : world -> world -> Prop.
Variable out : string.
Hypothesis R_files : forall w w', files w' = files w -> R w w'.
Hypothesis R_trans : forall a b c, R a b -> R b c -> R a c.
Hypothesis R_write :
  forall w name text,
    R w (World (<[os_path_join out (name +:+ ".json") := File text]> (files w))
           (stderr w)).
Hypothesis R_mkdir :
  forall w,
    R w (World (foldr (fun p fs => <[p := Dir]> fs) (files w)
                  (path_ancestors out ++ [out])) (stderr w)).

Lemma preserves_ret {A} (a : A) : preserves R (mret a).
Proof. intros w. now apply R_files. Qed.

Lemma preserves_raise {A} (e : exn) : preserves R (raise (A := A) e).
Proof. intros w. now apply R_files. Qed.

Lemma preserves_lift {A} (r : result A) : preserves R (lift r).
Proof. intros w. now apply R_files. Qed.

Lemma preserves_echo_err (s : string) : preserves R (echo_err s).
Proof. intros w. now apply R_files. Qed.

Lemma preserves_bind {A B} (m : M A) (k : A -> M B) :
  preserves R m -> (forall a, preserves R (k a)) -> preserves R (m ≫= k).
Proof.
  intros Hm Hk w. unfold mbind, M_bind. specialize (Hm w).
  destruct (m w) as [[a|e] w1]; cbn [snd] in *; [|exact Hm].
  apply (R_trans _ w1); [exact Hm|apply Hk].
Qed.

Lemma preserves_get_files {B} (k : gmap string node -> M B) :
  (forall fs, preserves R (k fs)) -> preserves R (get_files ≫= k).
Proof.
  intros Hk. apply preserves_bind; [|exact Hk].
  intros w. now apply R_files.
Qed.

Lemma preserves_for_each {A S} (body : S -> A -> M S) (l : list A) (s : S) :
  (forall s x, preserves R (body s x)) -> preserves R (for_each body l s).
Proof.
  intros Hbody. revert s. induction l as [|x l IH]; intros s.
  - apply preserves_ret.
  - cbn [for_each]. apply preserves_bind; [apply Hbody|exact IH].
Qed.

Lemma preserves_create_multi_image_manifest
    (manifest_id label description : string) (ids : list cell)
    (dir base_url name : string) (verbose : bool) :
  preserves R
    (create_multi_image_manifest' manifest_id label description ids dir
       base_url (os_path_join out (name +:+ ".json")) verbose).
Proof.
  intros w.
  destruct (can_write (files w) (os_path_join out (name +:+ ".json"))) eqn:Hw.
  - rewrite create_multi_image_manifest_run by exact Hw. cbn [snd].
    apply (R_trans _ (World (<[os_path_join out (name +:+ ".json") :=
                                 File (json_dump
                                         (manifest_doc manifest_id label
                                            description base_url
                                            (canvases_from' (files w)
                                               manifest_id dir base_url ids
                                               1)))]> (files w)) (stderr w)));
      [apply R_write|now apply R_files].
  - rewrite create_multi_image_manifest_unwritable by exact Hw.
    now apply R_files.
Qed.

Lemma preserves_makedirs : preserves R (makedirs' out).
Proof.
  intros w. unfold makedirs.
  destruct (List.find (is_file (files w)) (path_ancestors out ++ [out]));
    cbn [snd]; [now apply R_files|apply R_mkdir].
Qed.

Lemma preserves_load_csv_data (csv_path : string) :
  preserves R (load_csv_data' csv_path).
Proof.
  unfold load_csv_data. apply preserves_get_files. intros fs.
  destruct (fs !! csv_path) as [[|text]|];
    [apply preserves_raise|apply preserves_lift|apply preserves_raise].
Qed.

Lemma preserves_split_step (dir base_url : string) (verbose : bool) (u : unit)
    (kv : string * list cell) :
  preserves R (split_step' dir out base_url verbose u kv).
Proof.
  unfold split_step. destruct (snd kv); [apply preserves_echo_err|].
  destruct (assoc (fst kv) set_descriptions); [|apply preserves_raise].
  apply preserves_bind; [apply preserves_create_multi_image_manifest|].
  intros doc. apply preserves_ret.
Qed.

Lemma preserves_saint_step (saints : buckets) (dir base_url : string)
    (verbose : bool) (u : unit) (saint : string) :
  preserves R (saint_step' saints dir out base_url verbose u saint).
Proof.
  unfold saint_step. destruct (assoc saint saints) as [[|i ids]|];
    [apply preserves_ret| |apply preserves_raise].
  apply preserves_bind; [apply preserves_create_multi_image_manifest|].
  intros doc. apply preserves_ret.
Qed.

Lemma preserves_sample_stage (items : list cell) (dir base_url : string)
    (sample_size : option Z) (verbose force : bool) :
  preserves R (sample_stage' items dir out base_url sample_size verbose force).
Proof.
  unfold sample_stage. destruct sample_size as [n|]; [|apply preserves_ret].
  destruct (0 <? n); [|apply preserves_ret].
  apply preserves_get_files. intros fs.
  destruct (path_exists fs (os_path_join out "sample.json") && negb force);
    [apply preserves_ret|].
  apply preserves_bind;
    [apply (preserves_create_multi_image_manifest "sample" _ _ _ _ _ "sample")|].
  intros doc. apply preserves_ret.
Qed.

Lemma preserves_generate_manifests (o : options) :
  resolve_path (output_dir o) = out -> preserves R (generate_manifests' o).
Proof.
  intros Hout. unfold generate_manifests. rewrite Hout.
  apply preserves_get_files. intros fs.
  destruct (negb (path_exists fs (resolve_path (csv_file o))));
    [apply preserves_echo_err|].
  destruct (negb (path_exists fs (resolve_path (images_dir o))));
    [apply preserves_echo_err|].
  apply preserves_bind; [apply preserves_lift|]. intros [|f l];
    [apply preserves_echo_err|].
  destruct (path_exists fs out && negb (force o)
            && negb (bool_decide (glob_json' fs out = [])));
    [apply preserves_ret|].
  apply preserves_bind; [apply preserves_makedirs|]. intros _.
  apply preserves_bind; [apply preserves_load_csv_data|]. intros cat.
  apply preserves_bind.
  { destruct (generate_all o || generate_splits o); [|apply preserves_ret].
    apply preserves_for_each. intros s x. apply preserves_split_step. }
  intros _. apply preserves_bind.
  { destruct (generate_all o || generate_saints o); [|apply preserves_ret].
    apply preserves_for_each. intros s x. apply preserves_saint_step. }
  intros _. apply preserves_sample_stage.
Qed.

End Invariant.

Lemma mkdir_all_is_Some (ps : list string) (fs : gmap string node)
    (p : string) :
  is_Some (fs !! p) ->
  is_Some (foldr (fun q fs => <[q := Dir]> fs) fs ps !! p).
Proof.
  intros H. induction ps as [|q ps IH]; [exact H|].
  cbn [foldr]. apply lookup_insert_is_Some'. now right.
Qed.

(** X11. Whatever the options and the outcome (normal return, early return
    or exception), a run of the driver changes no path other than the
    output directory, the directories above it, and names of the form
    [{name}.json] joined to the output directory. In particular the catalog
    file and the image files are never modified. *)
Theorem generate_manifests_footprint :
  forall (o : options) (w : world),
    unchanged_outside
      (output_target os_path_join path_ancestors (resolve_path (output_dir o)))
      w (snd (generate_manifests' o w)).
Proof.
  intros o w.
  apply (preserves_generate_manifests
           (unchanged_outside
              (output_target os_path_join path_ancestors
                 (resolve_path (output_dir o))))
           (resolve_path (output_dir o))); [| | | |reflexivity].
  - intros a b E p _. now rewrite E.
  - intros a b c Hab Hbc p Hp. rewrite (Hbc p Hp). apply (Hab p Hp).
  - intros a name text p Hp. cbn [files]. apply lookup_insert_ne.
    intros E. apply Hp. right. exists name. now symmetry.
  - intros a p Hp. cbn [files]. apply mkdir_all_lookup.
    intros Hin. apply Hp. now left.
Qed.

(** X12. A run of the driver never removes a path: every file and directory
    that exists before the run exists after it, whatever the options and
    the outcome. *)
Theorem generate_manifests_keeps_paths :
  forall (o : options) (w : world),
    keeps_paths w (snd (generate_manifests' o w)).
Proof.
  intros o w.
  apply (preserves_generate_manifests keeps_paths
           (resolve_path (output_dir o))); [| | | |reflexivity].
  - intros a b E p. now rewrite E.
  - intros a b c Hab Hbc p Hp. apply Hbc, Hab, Hp.
  - intros a name text p Hp. cbn [files]. apply lookup_insert_is_Some'.
    now right.
  - intros a p Hp. cbn [files]. now apply mkdir_all_is_Some.
Qed.

(** *** The sample block *)

Lemma glob_json_member (fs : gmap string node) (d p : string) :
  path_exists fs p = true -> dir_entry d p = true ->
  ends_with ".json" (path_name p) = true -> In p (glob_json' fs d).
Proof.
  unfold path_exists, glob_json. intros Hp Hd He.
  apply bool_decide_eq_true_1 in Hp as [n Hn].
  apply List.filter_In. split; [|now rewrite Hd, He].
  apply in_map_iff. exists (p, n). split; [reflexivity|].
  apply list_elem_of_In. now apply elem_of_map_to_list.
Qed.

Lemma makedirs_files (d : string) (w w1 : world) :
  makedirs' d w = (Ok tt, w1) ->
  w1 = World (foldr (fun q fs => <[q := Dir]> fs) (files w)
                (path_ancestors d ++ [d])) (stderr w).
Proof.
  unfold makedirs.
  destruct (List.find (is_file (files w)) (path_ancestors d ++ [d]));
    [discriminate|].
  now intros [= <-].
Qed.

(** X13. The "sample already exists" branch of the driver is never taken in
    a run that has only the sample to build. If [sample.json] is an entry of
    the output directory that [glob('*.json')] lists, is not the output
    directory or a directory above it, and cannot exist without the output
    directory, then a run that passes the directory check finds no
    [sample.json] unless force is set, so it always writes the sample
    manifest. *)
Theorem sample_check_never_skips (o : options) (w w1 : world)
    (text f : string) (l : list string) (n : Z) :
  let out := resolve_path (output_dir o) in
  let sample_path := os_path_join out "sample.json" in
  dir_entry out sample_path = true ->
  ends_with ".json" (path_name sample_path) = true ->
  ~ In sample_path (path_ancestors out ++ [out]) ->
  (path_exists (files w) sample_path = true ->
   path_exists (files w) out = true) ->
  generate_all o = false -> generate_splits o = false ->
  generate_saints o = false ->
  files w !! resolve_path (csv_file o) = Some (File text) ->
  image_files' (files w) (resolve_path (images_dir o)) = Ok (f :: l) ->
  path_exists (files w) out && negb (force o)
    && negb (bool_decide (glob_json' (files w) out = [])) = false ->
  makedirs' out w = (Ok tt, w1) ->
  Forall row_ok (DictReader text) ->
  sample_size o = Some n -> 0 < n ->
  can_write (files w1) sample_path = true ->
  path_exists (files w1) sample_path && negb (force o) = false /\
  exists doc w',
    generate_manifests' o w = (Ok tt, w') /\
    files w' = <[sample_path := File (json_dump doc)]> (files w1).
Proof.
  intros out sample_path Hentry Hjson Hfresh Hparent Hall Hsplits Hsaints Hcsv
         Himgs Hgate Hmk Hrows Hsize Hn Hw.
  assert (Hskip : path_exists (files w1) sample_path && negb (force o) = false).
  { destruct (force o); [apply andb_false_r|]. rewrite andb_true_r.
    rewrite (makedirs_files _ _ _ Hmk). unfold path_exists. cbn [files].
    rewrite mkdir_all_lookup by exact Hfresh.
    destruct (path_exists (files w) sample_path) eqn:Hsample;
      [|exact Hsample].
    exfalso. rewrite (Hparent eq_refl) in Hgate. cbn [negb andb] in Hgate.
    apply negb_false_iff, bool_decide_eq_true_1 in Hgate.
    pose proof (glob_json_member _ out _ Hsample Hentry Hjson) as Hin.
    fold out in Hgate. rewrite Hgate in Hin. destruct Hin. }
  split; [exact Hskip|]. eexists _, _. split.
  - rewrite (generate_manifests_sample_run path_join path_name path_suffix
               os_path_join resolve_path dir_entry path_ancestors Image_size
               json_dump DictReader can_write o w w1 text f l n);
      try assumption.
    apply sample_stage_run; assumption.
  - reflexivity.
Qed.

(** X14. The cases of the sample block. Without a sample size, or with a
    sample size of zero or less, it does nothing; with a positive size and
    an existing [sample.json] and no force it does nothing either;
    otherwise, on a writable path, it writes a manifest that has at most
    N canvases and at most as many canvases as the catalog has items. *)
Theorem sample_stage_cases :
  forall (items : list cell) (dir out base_url : string)
         (verbose force : bool) (w : world),
    let sample_path := os_path_join out "sample.json" in
    sample_stage' items dir out base_url None verbose force w = (Ok tt, w) /\
    (forall n, n <= 0 ->
       sample_stage' items dir out base_url (Some n) verbose force w
       = (Ok tt, w)) /\
    (forall n, 0 < n ->
       path_exists (files w) sample_path = true -> force = false ->
       sample_stage' items dir out base_url (Some n) verbose force w
       = (Ok tt, w)) /\
    (forall n, 0 < n ->
       path_exists (files w) sample_path && negb force = false ->
       can_write (files w) sample_path = true ->
       exists doc w',
         sample_stage' items dir out base_url (Some n) verbose force w
         = (Ok tt, w') /\
         files w' = <[sample_path := File (json_dump doc)]> (files w) /\
         (length (jitems doc) <= Z.to_nat n)%nat /\
         (length (jitems doc) <= length items)%nat).
Proof.
  intros items dir out base_url verbose force w sample_path.
  split; [reflexivity|]. split; [|split].
  - intros n Hn. unfold sample_stage.
    replace (0 <? n) with false; [reflexivity|].
    symmetry. apply Z.ltb_ge. exact Hn.
  - intros n Hn Hexists ->. unfold sample_stage.
    replace (0 <? n) with true by (symmetry; now apply Z.ltb_lt).
    unfold mbind, M_bind, get_files. cbv beta iota. fold sample_path.
    rewrite Hexists. reflexivity.
  - intros n Hn Hgate Hw. eexists _, _.
    split; [now apply sample_stage_run|]. cbn [files].
    split; [reflexivity|].
    unfold jitems, jget, manifest_doc.
    cbn [assoc String.eqb Ascii.eqb Bool.eqb].
    rewrite canvases_from_length.
    pose proof (List.filter_length_le
                  (fun i => located' (files w) i dir)
                  (take (Z.to_nat n) items)) as Hle.
    rewrite length_take in Hle. split; lia.
Qed.

(** X15. The output directory is created before the catalog is read: when
    the checks pass but a row of the catalog lacks the [item] or [set]
    field, the driver raises the loader's [KeyError], and the only thing the
    run has done by then is [os.makedirs] of the output directory. *)
Theorem generate_manifests_load_error (o : options) (w w1 : world)
    (text f : string) (l : list string) (e : exn) :
  files w !! resolve_path (csv_file o) = Some (File text) ->
  image_files' (files w) (resolve_path (images_dir o)) = Ok (f :: l) ->
  path_exists (files w) (resolve_path (output_dir o)) && negb (force o)
    && negb (bool_decide (glob_json' (files w) (resolve_path (output_dir o))
                          = [])) = false ->
  makedirs' (resolve_path (output_dir o)) w = (Ok tt, w1) ->
  load_rows (DictReader text) empty_catalog = Raise e ->
  generate_manifests' o w = (Raise e, w1) /\
  is_dir (files w1) (resolve_path (output_dir o)) = true.
Proof.
  intros Hcsv Himgs Hgate Hmk Hload. split.
  - unfold generate_manifests.
    unfold mbind at 1. unfold M_bind, get_files. cbv beta iota zeta.
    rewrite (path_exists_file _ _ _ Hcsv),
      (image_files_dir path_suffix dir_entry _ _ _ Himgs).
    cbn [negb]. unfold mbind at 1. unfold M_bind, lift. rewrite Himgs, Hgate.
    unfold mbind at 1. unfold M_bind. rewrite Hmk.
    unfold mbind at 1. unfold M_bind.
    assert (Hcsv1 : files w1 !! resolve_path (csv_file o) = Some (File text)).
    { destruct (makedirs_keeps_files path_ancestors _
                  (resolve_path (csv_file o)) _ _ Hmk) as [E _].
      - unfold is_file. now rewrite Hcsv.
      - now rewrite E. }
    rewrite (load_csv_data_run DictReader _ _ _ Hcsv1), Hload. reflexivity.
  - rewrite (makedirs_files _ _ _ Hmk). unfold is_dir. cbn [files].
    rewrite foldr_app. cbn [foldr].
    generalize (path_ancestors (resolve_path (output_dir o))).
    intros ps. induction ps as [|q ps IH].
    + cbn [foldr]. now rewrite lookup_insert_eq.
    + cbn [foldr].
      destruct (decide (q = resolve_path (output_dir o))) as [->|Hne].
      * now rewrite lookup_insert_eq.
      * rewrite lookup_insert_ne by exact Hne. exact IH.
Qed.

(** *** An empty catalog *)

Lemma split_stage_empty (dir out base_url : string) (verbose : bool)
    (w : world) :
  for_each (split_step' dir out base_url verbose) (set_data empty_catalog) tt w
  = (Ok tt,
     World (files w)
       (stderr w ++ ["  ⚠ Skipping train.json (no images)";
                     "  ⚠ Skipping test.json (no images)";
                     "  ⚠ Skipping val.json (no images)"])).
Proof.
  destruct w as [fs err]. cbn [for_each set_data empty_catalog].
  unfold split_step, mbind, M_bind, echo_err, mret, M_ret.
  cbn [fst snd files stderr]. now rewrite <- !app_assoc.
Qed.

Lemma saint_stage_empty (dir out base_url : string) (verbose : bool)
    (w : world) :
  for_each (saint_step' (saint_data empty_catalog) dir out base_url verbose)
    SAINT_CATEGORIES tt w
  = (Ok tt, w).
Proof. reflexivity. Qed.

(** X16. On a catalog without rows a run with [--generate-all] whose checks
    pass builds no split and no category manifest: it prints one "Skipping"
    line on stderr for each of train, test and val, skips every category
    silently, and still writes the sample manifest, with an empty [items]
    array. *)
Theorem generate_manifests_empty_catalog (o : options) (w w1 : world)
    (text f : string) (l : list string) (n : Z) :
  generate_all o = true ->
  files w !! resolve_path (csv_file o) = Some (File text) ->
  DictReader text = [] ->
  image_files' (files w) (resolve_path (images_dir o)) = Ok (f :: l) ->
  path_exists (files w) (resolve_path (output_dir o)) && negb (force o)
    && negb (bool_decide (glob_json' (files w) (resolve_path (output_dir o))
                          = [])) = false ->
  makedirs' (resolve_path (output_dir o)) w = (Ok tt, w1) ->
  sample_size o = Some n -> 0 < n ->
  path_exists (files w1)
    (os_path_join (resolve_path (output_dir o)) "sample.json")
    && negb (force o) = false ->
  can_write (files w1)
    (os_path_join (resolve_path (output_dir o)) "sample.json") = true ->
  generate_manifests' o w
  = (Ok tt,
     World
       (<[os_path_join (resolve_path (output_dir o)) "sample.json" :=
            File (json_dump
                    (manifest_doc "sample"
                       ("Sample Collection (" +:+ pretty n +:+ " images)")
                       ("Sample collection of " +:+ pretty n
                          +:+ " images from the ArtDL dataset")
                       (base_url o) []))]> (files w1))
       (stderr w ++ ["  ⚠ Skipping train.json (no images)";
                     "  ⚠ Skipping test.json (no images)";
                     "  ⚠ Skipping val.json (no images)"])).
Proof.
  intros Hall Hcsv Hrows Himgs Hgate Hmk Hsize Hn Hsample Hw.
  unfold generate_manifests.
  unfold mbind at 1. unfold M_bind, get_files. cbv beta iota zeta.
  rewrite (path_exists_file _ _ _ Hcsv),
    (image_files_dir path_suffix dir_entry _ _ _ Himgs).
  cbn [negb]. unfold mbind at 1. unfold M_bind, lift. rewrite Himgs, Hgate.
  unfold mbind at 1. unfold M_bind. rewrite Hmk.
  unfold mbind at 1. unfold M_bind.
  assert (Hcsv1 : files w1 !! resolve_path (csv_file o) = Some (File text)).
  { destruct (makedirs_keeps_files path_ancestors _
                (resolve_path (csv_file o)) _ _ Hmk) as [E _].
    - unfold is_file. now rewrite Hcsv.
    - now rewrite E. }
  rewrite (load_csv_data_run DictReader _ _ _ Hcsv1), Hrows.
  cbn [load_rows]. rewrite Hall, Hsize. cbn [orb all_items empty_catalog].
  unfold mbind at 1. unfold M_bind.
  change (set_data {| set_data := [("train", []); ("test", []); ("val", [])];
                      saint_data := map (fun saint => (saint, []))
                                      SAINT_CATEGORIES;
                      all_items := [] |})
    with (set_data empty_catalog).
  rewrite split_stage_empty.
  unfold mbind at 1. unfold M_bind.
  change (saint_data {| set_data := [("train", []); ("test", []); ("val", [])];
                        saint_data := map (fun saint => (saint, []))
                                        SAINT_CATEGORIES;
                        all_items := [] |})
    with (saint_data empty_catalog).
  rewrite saint_stage_empty.
  rewrite sample_stage_run; try assumption.
  cbn [files stderr]. rewrite take_nil.
  rewrite (makedirs_stderr path_ancestors _ _ _ Hmk).
  cbn [canvases_from warnings_from]. now rewrite app_nil_r.
Qed.

End PlatformFurther.

(** ** The further statements on a concrete disk *)

Lemma buckets_are_subsequences_witness :
  exists c,
    load_rows (Posix.DictReader Posix.artdl_csv) empty_catalog = Ok c /\
    (forall k l, assoc k (set_data c) = Some l -> sublist l (all_items c)) /\
    (forall k l, assoc k (saint_data c) = Some l -> sublist l (all_items c)) /\
    all_items c = [Some "a"; Some "b"; Some "c"; Some "d"] /\
    exists train test val,
      set_data c = [("train", train); ("test", test); ("val", val)] /\
      (length train + length test + length val = 3)%nat.
Proof.
  eexists. split; [vm_compute; reflexivity|].
  destruct (buckets_are_subsequences (Posix.DictReader Posix.artdl_csv) _
              ltac:(vm_compute; reflexivity))
    as (Hsets & Hsaints & train & test & val & E & Hcount & _).
  split; [exact Hsets|]. split; [exact Hsaints|].
  split; [reflexivity|].
  exists train, test, val. split; [exact E|]. rewrite Hcount. reflexivity.
Defined.

Lemma category_bucket_membership_witness :
  exists l,
    assoc "11H(JEROME)"
      (saint_data
         {| all_items := [Some "a"; Some "b"; Some "c"; Some "d"];
            set_data := [("train", [Some "a"]); ("test", [Some "b"]);
                         ("val", [Some "c"])];
            saint_data :=
              map (fun saint =>
                     (saint,
                      items_where (fun r => flag_set r saint)
                        (Posix.DictReader Posix.artdl_csv)))
                  SAINT_CATEGORIES |}) = Some l /\
    forall x,
      In x l <->
      exists r, In r (Posix.DictReader Posix.artdl_csv) /\
                r !! "11H(JEROME)" = Some (Some "1") /\ field "item" r = x.
Proof.
  apply (category_bucket_membership (Posix.DictReader Posix.artdl_csv)).
  - vm_compute. reflexivity.
  - vm_compute. auto 10.
Defined.

Lemma create_multi_image_manifest_twice_witness :
  exists doc w1 w2,
    Posix.create_multi_image_manifest "pair" "Pair" "Two items"
      [Some "a"; Some "b"] "/data/images" "http://h" "/out/pair.json" false
      (World Posix.disk []) = (Ok doc, w1) /\
    Posix.create_multi_image_manifest "pair" "Pair" "Two items"
      [Some "a"; Some "b"] "/data/images" "http://h" "/out/pair.json" false
      w1 = (Ok doc, w2) /\
    files w2 = files w1.
Proof.
  apply (create_multi_image_manifest_twice Posix.path_join Posix.path_name
           Posix.Image_size Posix.json_dump Posix.can_write).
  - intros fs p q n Hne. unfold Posix.Image_size.
    now rewrite lookup_insert_ne by congruence.
  - intros i ext [<-|[<-|[]]] Hext; cbn in Hext;
      repeat (destruct Hext as [<-|Hext]; [vm_compute; discriminate|]);
      destruct Hext.
  - vm_compute. reflexivity.
  - intros text. unfold Posix.can_write, is_dir. cbn [files].
    rewrite lookup_insert_eq. rewrite lookup_insert_ne by (vm_compute; discriminate).
    vm_compute. reflexivity.
Defined.

Lemma sample_check_never_skips_witness :
  path_exists Posix.disk_made "/out/collections/sample.json"
    && negb (force Posix.opts) = false /\
  exists doc w',
    Posix.generate_manifests Posix.opts (World Posix.disk []) = (Ok tt, w') /\
    files w'
    = <["/out/collections/sample.json" := File (Posix.json_dump doc)]>
        Posix.disk_made.
Proof.
  apply (sample_check_never_skips Posix.path_join Posix.path_name
           Posix.path_suffix Posix.path_join Posix.resolve_path
           Posix.dir_entry Posix.path_ancestors Posix.Image_size
           Posix.json_dump Posix.DictReader Posix.can_write
           Posix.opts (World Posix.disk []) (World Posix.disk_made [])
           Posix.artdl_csv "/data/images/c.TIF"
           ["/data/images/a.jpg"; "/data/images/b.png"] 3).
  - vm_compute; reflexivity.
  - vm_compute; reflexivity.
  - vm_compute. intros [H|[H|[]]]; discriminate.
  - intros H. vm_compute in H. discriminate.
  - reflexivity.
  - reflexivity.
  - reflexivity.
  - vm_compute; reflexivity.
  - vm_compute; reflexivity.
  - vm_compute; reflexivity.
  - vm_compute; reflexivity.
  - apply (bool_decide_unpack _). vm_compute. exact I.
  - reflexivity.
  - reflexivity.
  - vm_compute; reflexivity.
Defined.

Lemma generate_manifests_load_error_witness :
  let disk : gmap string node :=
    <["/data/ArtDL.csv" := File "item
a
"]> Posix.disk in
  Posix.generate_manifests Posix.opts (World disk [])
  = (Raise (KeyError "set"),
     World (<["/out/collections" := Dir]> disk) []) /\
  is_dir (<["/out/collections" := Dir]> disk) "/out/collections" = true.
Proof.
  intros disk.
  destruct (generate_manifests_load_error Posix.path_join Posix.path_name
              Posix.path_suffix Posix.path_join Posix.resolve_path
              Posix.dir_entry Posix.path_ancestors Posix.Image_size
              Posix.json_dump Posix.DictReader Posix.can_write
              Posix.opts (World disk [])
              (World (<["/out/collections" := Dir]> disk) [])
              "item
a
" "/data/images/c.TIF" ["/data/images/a.jpg"; "/data/images/b.png"]
              (KeyError "set")) as [Hrun Hdir].
  - vm_compute; reflexivity.
  - vm_compute; reflexivity.
  - vm_compute; reflexivity.
  - vm_compute; reflexivity.
  - vm_compute; reflexivity.
  - split; [exact Hrun|exact Hdir].
Defined.

Lemma generate_manifests_empty_catalog_witness :
  let disk : gmap string node :=
    <["/data/ArtDL.csv" := File "item,set
"]> Posix.disk in
  let o :=
    {| csv_file := "/data/ArtDL.csv";
       images_dir := "/data/images";
       output_dir := "/out/collections";
       base_url := "http://localhost:8182";
       sample_size := Some 3;
       generate_splits := false;
       generate_saints := false;
       generate_all := true;
       verbose := false;
       force := false |} in
  Posix.generate_manifests o (World disk [])
  = (Ok tt,
     World
       (<["/out/collections/sample.json" :=
            File (Posix.json_dump
                    (manifest_doc "sample" "Sample Collection (3 images)"
                       "Sample collection of 3 images from the ArtDL dataset"
                       "http://localhost:8182" []))]>
          (<["/out/collections" := Dir]> disk))
       ["  ⚠ Skipping train.json (no images)";
        "  ⚠ Skipping test.json (no images)";
        "  ⚠ Skipping val.json (no images)"]).
Proof.
  intros disk o.
  assert (Hrun := generate_manifests_empty_catalog Posix.path_join
                    Posix.path_name Posix.path_suffix Posix.path_join
                    Posix.resolve_path Posix.dir_entry Posix.path_ancestors
                    Posix.Image_size Posix.json_dump Posix.DictReader
                    Posix.can_write o (World disk [])
                    (World (<["/out/collections" := Dir]> disk) [])
                    "item,set
" "/data/images/c.TIF" ["/data/images/a.jpg"; "/data/images/b.png"] 3).
  exact (Hrun eq_refl
           ltac:(vm_compute; reflexivity) ltac:(vm_compute; reflexivity)
           ltac:(vm_compute; reflexivity) ltac:(vm_compute; reflexivity)
           ltac:(vm_compute; reflexivity) eq_refl eq_refl
           ltac:(vm_compute; reflexivity) ltac:(vm_compute; reflexivity)).
Defined.
